(** * linkapp.authentication: the credential store and its event messenger

    A shallow embedding of [linkapp/authentication/queue.py] and
    [linkapp/authentication/manager.py], with the handlers of [wsgi.py]
    that call them, and the properties the specification states about
    them.

    Conventions of the embedding.
    - Python [str] is [string]; a character is its code point, so only code
      points below 256 are represented (enough to tell 7-bit ASCII from the
      rest).
    - Python [int] is [Z]; the [float] durations handed to [time.sleep] are
      exact rationals ([Q]).
    - A [dict] is a [gmap]; the order of its keys is not represented.
    - Methods are computations in the monad [M]: they read and change a
      [world] (the Redis database, the messenger object, the broker, the
      clock) and either return a value or raise an exception. What a raising
      method did before it raised stays done.
    - The libraries the code calls (redis, pika, passlib, jsonschema,
      strict_rfc3339) are modelled by what the code relies on; the values
      they draw from outside (the salt, the time, whether the broker
      answers) come from the [world] or from the classes [Clock] and
      [Passlib]. *)

From Stdlib Require Import Ascii String QArith.
From stdpp Require Import gmap strings list fin_maps pretty.

Open Scope Z_scope.

(** ** Python values *)

(** The values a JSON request body gives as keyword arguments (scalars only;
    arrays and objects are outside the model). *)
Inductive json :=
| JNull
| JBool (b : bool)
| JNum (z : Z)
| JStr (s : string).

(** The values the methods return and put into messages. *)
Inductive pyval :=
| PNone
| PBool (b : bool)
| PStr (s : string)
| PTuple (l : list string)          (* a tuple of field names *)
| PList (l : list (option string)). (* a list of Redis replies *)

#[global] Instance json_eq_dec : EqDecision json.
Proof. solve_decision. Defined.
#[global] Instance pyval_eq_dec : EqDecision pyval.
Proof. solve_decision. Defined.

(** [None] or a string, as Redis answers for a hash field. *)
Definition of_reply (o : option string) : pyval :=
  match o with
  | Some s => PStr s
  | None => PNone
  end.

(** Truth value of a request value ([if v:], [not v]). *)
Definition truthy (v : json) : bool :=
  match v with
  | JNull => false
  | JBool b => b
  | JNum z => negb (z =? 0)
  | JStr s => negb (String.eqb s "")
  end.

(** [str(v)]: how redis-py writes a value that is not a string. *)
Definition str (v : json) : string :=
  match v with
  | JNull => "None"
  | JBool true => "True"
  | JBool false => "False"
  | JNum z => pretty z
  | JStr s => s
  end.

(** ** Exceptions *)

Inductive exn :=
| ValidationError                (* jsonschema.ValidationError *)
| BadUsername
| UserAlreadyExists
| UserNotFound
| FieldNotFound
| TooManyRetries (retries : Z)   (* "Maximum retries of {} exceeded" *)
| KeyError (key : string)
| TypeError
| ValueError                     (* passlib: not a pbkdf2_sha256 hash *)
| DataError                      (* redis: hmset with an empty mapping *)
| NotFound (msg : string)        (* wsgi.NotFound *)
| Unauthorized                   (* wsgi.Unauthorized *)
| BadRequest (msg : string)      (* wsgi.BadRequest *)
| ConnectionClosed               (* pika.exceptions.ConnectionClosed *)
| IndexError
| RecursionError.                (* recursion deeper than the fuel given *)

Inductive result (A : Type) :=
| Ok (a : A)
| Raise (e : exn).
Arguments Ok {A} a.
Arguments Raise {A} e.

(** ** The world *)

(** The attributes of an [AuthenticationMessenger]. *)
Record messenger := Messenger {
  url : string;
  retries : Z;
  max_retries : Z;
  retry_sleep_start : Q
}.

(** A message body: the dict handed to [json.dumps]. *)
Abbreviation message := (gmap string pyval).

(** What the process does to the outside, in order. *)
Inductive effect :=
| Slept (seconds : Q)                            (* time.sleep *)
| Published (channel exchange routing_key : string)
            (body : message) (persistent : bool) (* basic_publish *)
| Verified (password hash : string).             (* pbkdf2_sha256.verify *)

Record world := World {
  db : gmap string (gmap string string);  (* Redis: key to hash *)
  link : messenger;                       (* self.link_messenger *)
  broker : list bool;                     (* the next answers of the broker:
                                             false is ConnectionClosed; an
                                             exhausted list is a broker that
                                             answers *)
  clock : nat;                            (* readings of the clock so far *)
  rng : nat;                              (* salts drawn so far *)
  trace : list effect
}.

Definition set_db (d : gmap string (gmap string string)) (w : world) : world :=
  World d (link w) (broker w) (clock w) (rng w) (trace w).
Definition set_link (m : messenger) (w : world) : world :=
  World (db w) m (broker w) (clock w) (rng w) (trace w).
Definition set_broker (b : list bool) (w : world) : world :=
  World (db w) (link w) b (clock w) (rng w) (trace w).
Definition set_clock (n : nat) (w : world) : world :=
  World (db w) (link w) (broker w) n (rng w) (trace w).
Definition set_rng (n : nat) (w : world) : world :=
  World (db w) (link w) (broker w) (clock w) n (trace w).
Definition set_trace (t : list effect) (w : world) : world :=
  World (db w) (link w) (broker w) (clock w) (rng w) t.

Definition set_retries (n : Z) (m : messenger) : messenger :=
  Messenger (url m) n (max_retries m) (retry_sleep_start m).

(** ** The monad of methods *)

Definition M (A : Type) : Type := world → result A * world.

#[global] Instance M_ret : MRet M := λ A a w, (Ok a, w).
#[global] Instance M_bind : MBind M := λ A B f m w,
  match m w with
  | (Ok a, w') => f a w'
  | (Raise e, w') => (Raise e, w')
  end.

Definition raise {A} (e : exn) : M A := λ w, (Raise e, w).
Definition gets {A} (f : world → A) : M A := λ w, (Ok (f w), w).
Definition update (f : world → world) : M unit := λ w, (Ok tt, f w).
Definition emit (e : effect) : M unit :=
  update (λ w, set_trace (trace w ++ [e]) w).

(** [try: body except FieldNotFound: handler] and the like. *)
Definition try_except {A} (body : M A) (catch : exn → bool) (handler : M A) : M A :=
  λ w, match body w with
       | (Raise e, w') => if catch e then handler w' else (Raise e, w')
       | r => r
       end.

(** [d[k]] on a dict. *)
Definition getitem {V} (d : gmap string V) (k : string) : M V :=
  match d !! k with
  | Some v => mret v
  | None => raise (KeyError k)
  end.

(** A value used where the code needs a [str]. *)
Definition as_str (v : json) : M string :=
  match v with
  | JStr s => mret s
  | _ => raise TypeError
  end.

(** ** The libraries' values from outside *)

(** strict_rfc3339: the timestamp at the n-th reading of the clock. *)
Class Clock := now_to_rfc3339_utcoffset : nat → string.

(** passlib's pbkdf2_sha256: [hash] with the salt drawn, and [verify], which
    raises ValueError ([None]) on a string that is not such a hash. *)
Class Passlib := {
  pbkdf2_sha256_hash : nat → string → string;
  pbkdf2_sha256_verify : string → string → option bool
}.

(** A password verifies against its own hash. *)
Class PasslibVerifies `{Passlib} : Prop :=
  verify_own_hash : ∀ salt p, pbkdf2_sha256_verify p (pbkdf2_sha256_hash salt p) = Some true.

(** Nothing is assumed of the other passwords: which of them verify against
    a hash is for the library to say (HMAC fills a short key up with NUL
    bytes, so a password and the same followed by NUL derive one key). *)

(** * queue.py: the event messenger *)

Module Queue.
Section Messenger.
Context `{Clock}.

Definition is_ConnectionClosed (e : exn) : bool :=
  match e with
  | ConnectionClosed => true
  | _ => false
  end.

(** One exchange with the broker: it answers, or the connection is closed. *)
Definition broker_io : M unit := λ w,
  match broker w with
  | [] => (Ok tt, w)
  | true :: rest => (Ok tt, set_broker rest w)
  | false :: rest => (Raise ConnectionClosed, set_broker rest w)
  end.

Definition time_sleep (seconds : Q) : M unit := emit (Slept seconds).

(** [wait]: the next amount of time to wait until retrying a failed
    operation, [self.retry_sleep_start*(self.retries**2)]. *)
Definition wait : M Q :=
  gets (λ w, (retry_sleep_start (link w) * inject_Z (retries (link w) ^ 2))%Q).

(** The body of [connect]'s [try]: open the connection and declare the
    durable queue and the fanout exchange, then [self.retries = 0]. *)
Definition open_channels : M unit :=
  broker_io;;
  update (λ w, set_link (set_retries 0 (link w)) w).

(** [connect]. The recursion of the source is bounded by [fuel]. *)
Fixpoint connect_fuel (fuel : nat) : M unit :=
  match fuel with
  | O => raise RecursionError
  | S fuel' =>
    self ← gets link;
    if bool_decide (retries self >= max_retries self) then
      raise (TooManyRetries (retries self))
    else
      try_except open_channels is_ConnectionClosed
        (seconds ← wait;
         time_sleep seconds;;
         update (λ w, set_link (set_retries (retries (link w) + 1) (link w)) w);;
         connect_fuel fuel')
  end.

(** Every recursive call follows a closed connection, which uses up one
    answer of the broker: as many calls as answers left, and one, suffice.
    The interpreter's own limit on the depth of recursion (1000 frames by
    default) is not represented: what is said of a broker that closes
    connections holds of the source for as long as the closed connections
    of one call stay within that limit. *)
Definition connect : M unit :=
  λ w, connect_fuel (S (length (broker w))) w.

(** [basic_publish] on one of the two channels. *)
Definition basic_publish (channel exchange routing_key : string)
    (body : message) (persistent : bool) : M unit :=
  broker_io;;
  emit (Published channel exchange routing_key body persistent).

(** [publish]: publish on the named channel; on a closed connection,
    reconnect and publish again. *)
Fixpoint publish_fuel (fuel : nat) (channel exchange routing_key : string)
    (body : message) (persistent : bool) : M unit :=
  match fuel with
  | O => raise RecursionError
  | S fuel' =>
    try_except
      (if String.eqb channel "job" then
         basic_publish "job" exchange routing_key body persistent
       else if String.eqb channel "log" then
         basic_publish "log" exchange routing_key body persistent
       else mret tt)
      is_ConnectionClosed
      (connect;;
       publish_fuel fuel' channel exchange routing_key body persistent)
  end.

(** As for [connect]: one recursive call for each closed connection, so
    the answers left bound the depth; the interpreter's limit is not
    represented. *)
Definition publish (channel exchange routing_key : string)
    (body : message) (persistent : bool) : M unit :=
  λ w, publish_fuel (S (length (broker w))) channel exchange routing_key body persistent w.

(** [__init__] (the registration of [disconnect] at exit is left out). *)
Definition init (url : string) (max_retries : Z) (retry_sleep_start : Q) : M unit :=
  update (set_link (Messenger url 1 max_retries retry_sleep_start));;
  connect.

(** [job]: the body as it is, on the durable queue, marked persistent. *)
Definition job (message : message) : M unit :=
  publish "job" "" "auth_jobs" message true.

(** [log]: the body with the time of sending, on the fanout exchange. *)
Definition log (message : message) : M unit :=
  time ← (λ w, (Ok (now_to_rfc3339_utcoffset (clock w)), set_clock (S (clock w)) w));
  publish "log" "auth_logs" "" (<["time" := PStr time]> message) false.

Definition exists_ (username : string) (exists_ : bool) : M unit :=
  log {[ "username" := PStr username; "exists?" := PBool exists_;
         "action" := PStr "user:exists" ]}.

Definition authorized (username : string) (system : pyval) : M unit :=
  log {[ "username" := PStr username; "system" := system;
         "action" := PStr "user:authorized" ]}.

Definition failed (username : string) (system : pyval) : M unit :=
  log {[ "username" := PStr username; "system" := system;
         "action" := PStr "user:failed-authorize" ]}.

Definition added (username : string) : M unit :=
  log {[ "username" := PStr username; "action" := PStr "user:added" ]}.

Definition removed (username : string) : M unit :=
  log {[ "username" := PStr username; "action" := PStr "user:removed" ]}.

Definition viewed_listing : M unit :=
  log {[ "action" := PStr "user:viewed-listing" ]}.

Definition viewed (username : string) : M unit :=
  log {[ "username" := PStr username; "action" := PStr "user:viewed" ]}.

Definition viewed_field (username : string) (field : list string) : M unit :=
  log {[ "username" := PStr username; "field" := PTuple field;
         "action" := PStr "user:viewed-field" ]}.

Definition changed (username : string) (field : list string) : M unit :=
  log {[ "username" := PStr username; "field" := PTuple field;
         "action" := PStr "user:changed-field" ]}.

End Messenger.
End Queue.

(** * manager.py: the credential store *)

Module Manager.

(** ** jsonschema *)

Inductive jtype := TString | TBoolean.

Record property := Property {
  ptype : jtype;
  pdefault : option json
}.

Record json_schema := Schema {
  properties : list (string * property);
  required : list string
}.

Definition schema : json_schema :=
  Schema [ ("username", Property TString None);
           ("password", Property TString None);
           ("encrypted", Property TBoolean (Some (JBool false)));
           ("system", Property TBoolean (Some (JBool false))) ]
         [ "username" ].

(** [add_schema = schema.copy()] with its own [required]. *)
Definition add_schema : json_schema :=
  Schema (properties schema) [ "username"; "password" ].

Definition has_type (t : jtype) (v : json) : bool :=
  match t, v with
  | TString, JStr _ => true
  | TBoolean, JBool _ => true
  | _, _ => false
  end.

(** What [jsonschema.validate] checks of an object against such a schema. *)
Definition valid (instance : gmap string json) (s : json_schema) : bool :=
  forallb (λ k, bool_decide (is_Some (instance !! k))) (required s)
  && forallb (λ kp, match instance !! kp.1 with
                    | Some v => has_type (ptype kp.2) v
                    | None => true
                    end) (properties s).

Definition jsonschema_validate (instance : gmap string json) (s : json_schema) : M unit :=
  if valid instance s then mret tt else raise ValidationError.

(** [s['properties'][name]['default']]. *)
Definition default_of (s : json_schema) (name : string) : M json :=
  match list_to_map (M := gmap string property) (properties s) !! name with
  | Some p => match pdefault p with
              | Some v => mret v
              | None => raise (KeyError "default")
              end
  | None => raise (KeyError name)
  end.

(** ** re *)

(** The class [[\x00-\x7F/]]. *)
Definition in_class (c : ascii) : bool :=
  (N_of_ascii c <=? 127)%N || Ascii.eqb c "/".

(** [$]: the end of the string, or just before a newline that ends it. *)
Definition at_dollar (s : string) : bool :=
  match s with
  | EmptyString => true
  | String c EmptyString => Ascii.eqb c "010"
  | _ => false
  end.

(** [[\x00-\x7F/]+$] from the current position: one character of the class,
    and then either [$] or the same again. *)
Fixpoint class_plus_dollar (s : string) : bool :=
  match s with
  | EmptyString => false
  | String c rest => in_class c && (at_dollar rest || class_plus_dollar rest)
  end.

(** [re.match("^[\x00-\x7F/]+$", s)] finds a match. *)
Definition re_match (s : string) : bool := class_plus_dollar s.

(** ** redis *)

(** The hash at a key; a key that is not there reads as the empty hash. *)
Definition hash_at (key : string) (w : world) : gmap string string :=
  default ∅ (db w !! key).

Definition redis_exists (key : string) : M Z :=
  gets (λ w, if bool_decide (is_Some (db w !! key)) then 1 else 0).

Definition redis_delete (key : string) : M Z := λ w,
  match db w !! key with
  | Some _ => (Ok 1, set_db (delete key (db w)) w)
  | None => (Ok 0, w)
  end.

(** [hmset]: set the fields of the mapping in the hash at the key, each
    value written as [str] gives it. *)
Definition hmset (key : string) (mapping : gmap string json) : M bool :=
  if bool_decide (mapping = ∅) then raise DataError
  else
    update (λ w, set_db (<[key := (str <$> mapping) ∪ hash_at key w]> (db w)) w);;
    mret true.

(** [hmget] with one field name: a list of one reply. *)
Definition hmget (key field : string) : M (list (option string)) :=
  gets (λ w, [hash_at key w !! field]).

(** [keys(prefix + "*")]. *)
Definition keys (prefix : string) : M (list string) :=
  gets (λ w, filter (λ k, String.prefix prefix k = true) (elements (dom (db w)))).

(** The reply to HGETALL: field, value, field, value, ... *)
Definition hgetall_reply (key : string) (w : world) : list string :=
  flat_map (λ kv, [kv.1; kv.2]) (map_to_list (hash_at key w)).

(** [zip(it, it)] over one iterator: consecutive pairs. *)
Fixpoint pairs (response : list string) : list (string * string) :=
  match response with
  | k :: v :: rest => (k, v) :: pairs rest
  | _ => []
  end.

(** [dict(items)]: a later item replaces an earlier one with its key. *)
Definition dict {V} (items : list (string * V)) : gmap string V :=
  foldl (λ d kv, <[kv.1 := kv.2]> d) ∅ items.

(** The callbacks a pipeline can hold for HGETALL. *)
Inductive callback :=
| pairs_to_dict   (* redis-py's own *)
| safe_user.      (* self._safe_user *)

(** [_safe_user]. *)
Definition _safe_user (response : list string) : gmap string pyval :=
  let result := PStr <$> dict (pairs response) in
  <["password" := PNone]> result.

Definition run_callback (c : callback) (response : list string) : gmap string pyval :=
  match c with
  | pairs_to_dict => PStr <$> dict (pairs response)
  | safe_user => _safe_user response
  end.

(** A pipeline: its own copy of the response callbacks (that is the
    monkeypatch: setting a callback on a pipeline leaves the connection's
    table alone) and the commands queued, here the keys to HGETALL. *)
Record pipeline := Pipeline {
  response_callbacks : gmap string callback;
  command_stack : list string
}.

(** The connection's table of response callbacks. *)
Definition connection_response_callbacks : gmap string callback :=
  {[ "HGETALL" := pairs_to_dict ]}.

Definition new_pipeline : pipeline :=
  Pipeline connection_response_callbacks [].

Definition set_response_callback (command : string) (c : callback) (pipe : pipeline) : pipeline :=
  Pipeline (<[command := c]> (response_callbacks pipe)) (command_stack pipe).

Definition pipe_hgetall (key : string) (pipe : pipeline) : pipeline :=
  Pipeline (response_callbacks pipe) (command_stack pipe ++ [key]).

(** [execute]: all the queued commands on one state of the database, each
    reply through the pipeline's callback. *)
Definition execute (pipe : pipeline) : M (list (gmap string pyval)) :=
  gets (λ w, (λ key, run_callback (default pairs_to_dict (response_callbacks pipe !! "HGETALL"))
                                  (hgetall_reply key w)) <$> command_stack pipe).

(** ** AuthenticationManager *)

Section AuthenticationManager.
Context `{Clock} `{Passlib}.

Definition key (username : string) : string := "user:" +:+ username.

(** [encrypt]: passlib draws a salt. *)
Definition encrypt (password : string) : M string := λ w,
  (Ok (pbkdf2_sha256_hash (rng w) password), set_rng (S (rng w)) w).

(** [pbkdf2_sha256.verify(password, hash)] on values of a fetched record. *)
Definition verify (password : string) (hash : pyval) : M bool :=
  match hash with
  | PStr h =>
    emit (Verified password h);;
    match pbkdf2_sha256_verify password h with
    | Some b => mret b
    | None => raise ValueError
    end
  | _ => raise TypeError
  end.

Definition validate_username (username : string) : bool :=
  if re_match username then true else false.

Definition exists_ (username : string) : M bool :=
  let key := key username in
  n ← redis_exists key;
  let exists_ := negb (n =? 0) in
  Queue.exists_ username exists_;;
  mret exists_.

Definition get (username : string) (safe : bool) : M (gmap string pyval) :=
  let pipe := new_pipeline in
  let pipe := if safe then set_response_callback "HGETALL" safe_user pipe else pipe in
  let pipe := pipe_hgetall (key username) pipe in
  result ← execute pipe;
  Queue.viewed username;;
  match result with
  | first :: _ => mret first
  | [] => raise IndexError
  end.

Definition list_users (safe : bool) : M (list (gmap string pyval)) :=
  keys ← keys "user:";
  let pipe := new_pipeline in
  let pipe := if safe then set_response_callback "HGETALL" safe_user pipe else pipe in
  let pipe := foldl (λ pipe key, pipe_hgetall key pipe) pipe keys in
  result ← execute pipe;
  Queue.viewed_listing;;
  mret result.

Definition authenticate (username password : string) (system : bool) : M bool :=
  user ← get username false;
  if bool_decide (user ≠ ∅) then
    out_of_scope ← (if system then
                      flag ← getitem user "system";
                      mret (bool_decide (flag ≠ PStr "True"))
                    else mret false);
    if (out_of_scope : bool) then
      flag ← getitem user "system";
      Queue.failed username flag;;
      mret false
    else
      flag ← getitem user "system";
      Queue.authorized username flag;;
      hash ← getitem user "password";
      verify password hash
  else
    Queue.failed username PNone;;
    mret false.

Definition add (kwargs : gmap string json) : M string :=
  jsonschema_validate kwargs add_schema;;
  username ← getitem kwargs "username" ≫= as_str;
  if negb (validate_username username) then raise BadUsername
  else
    taken ← exists_ username;
    if (taken : bool) then raise UserAlreadyExists
    else
      let key := key username in
      plain ← default_of add_schema "encrypted";
      kwargs ← (if negb (truthy (default plain (kwargs !! "encrypted"))) then
                  password ← getitem kwargs "password" ≫= as_str;
                  hash ← encrypt password;
                  mret (<["password" := JStr hash]> kwargs)
                else mret kwargs);
      let kwargs := delete "encrypted" kwargs in
      ordinary ← default_of add_schema "system";
      let kwargs := <["system" := default ordinary (kwargs !! "system")]> kwargs in
      hmset key kwargs;;
      username ← getitem kwargs "username" ≫= as_str;
      Queue.added username;;
      mret username.

Definition modify (kwargs : gmap string json) : M bool :=
  jsonschema_validate kwargs schema;;
  plain ← default_of add_schema "encrypted";
  kwargs ← (if negb (truthy (default plain (kwargs !! "encrypted"))) then
              password ← getitem kwargs "password" ≫= as_str;
              hash ← encrypt password;
              mret (<["password" := JStr hash]> kwargs)
            else mret kwargs);
  let kwargs := delete "encrypted" kwargs in
  username ← getitem kwargs "username" ≫= as_str;
  let kwargs := delete "username" kwargs in
  result ← hmset (key username) kwargs;
  Queue.changed username (map_to_list kwargs).*1;;
  mret result.

Definition delete (username : string) : M Z :=
  result ← redis_delete (key username);
  mret result.

Definition get_one_field (username field : string) : M pyval :=
  if bool_decide (field ∈ ["password"]) then raise FieldNotFound
  else
    result ← hmget (key username) field;
    Queue.viewed_field username [field];;
    mret (PList result).

End AuthenticationManager.
End Manager.

(** * wsgi.py: the gateway method that reads one field *)

Module Wsgi.
Section AuthenticationMicroservice.
Context `{Clock}.

Definition is_FieldNotFound (e : exn) : bool :=
  match e with
  | FieldNotFound => true
  | _ => false
  end.

Definition get_user_field (username field : string) : M pyval :=
  known ← Manager.exists_ username;
  if negb known then raise (NotFound "User does not exist")
  else
    try_except
      (result ← Manager.get_one_field username field;
       match result with
       | PNone => raise FieldNotFound
       | _ => mret result
       end)
      is_FieldNotFound
      (raise (NotFound "Field does not exist")).

End AuthenticationMicroservice.

(** The body of a request once parsed ([req.json]): an object, or a value
    that is not one. *)
Inductive body :=
| BObject (data : gmap string json)
| BValue (v : json).

(** What the handlers read of a request. [authorization] is the pair webob
    gives for the header, the credentials being taken here after
    [base64.b64decode] and [decode('utf-8')]. *)
Record request := Request {
  authorization : option (string * string);
  req_json : body
}.

(** [s.split(sep)] for a separator of one character. *)
Fixpoint split (sep : ascii) (s : string) : list string :=
  match s with
  | EmptyString => [EmptyString]
  | String c rest =>
    if Ascii.eqb c sep then EmptyString :: split sep rest
    else match split sep rest with
         | first :: others => String c first :: others
         | [] => [String c EmptyString]
         end
  end.

Section Handlers.
Context `{Clock} `{Passlib}.

Definition authorize (req : request) : M unit :=
  match authorization req with
  | Some (auth_type, decoded) =>
    match split ":" decoded with
    | [username; password] =>
      granted ← Manager.authenticate username password true;
      if negb granted then raise Unauthorized else mret tt
    | _ => raise ValueError
    end
  | None => raise Unauthorized
  end.

Definition add_user (req : request) : M string :=
  authorize req;;
  match req_json req with
  | BObject data => Manager.add data
  | BValue _ => raise TypeError
  end.

Definition remove_user (req : request) (username : string) : M Z :=
  authorize req;;
  known ← Manager.exists_ username;
  if negb known then raise (NotFound "Not Found")
  else Manager.delete username.

Definition list_users (req : request) : M (list (gmap string pyval)) :=
  Manager.list_users true.


(** ['username' in data] on a body: a key of an object, a substring of a
    string; any other value is not iterable. *)
Definition mentions_username (data : body) : M bool :=
  match data with
  | BObject data => mret (bool_decide (is_Some (data !! "username")))
  | BValue (JStr s) => mret (bool_decide (is_Some (String.index 0 "username" s)))
  | BValue _ => raise TypeError
  end.

Definition modify_user_field (req : request) (username field : string) : M bool :=
  authorize req;;
  known ← Manager.exists_ username;
  if negb known then raise (NotFound "User does not exist")
  else
    let data := req_json req in
    named ← mentions_username data;
    if (named : bool) then raise (BadRequest "Cannot change username")
    else
      match data with
      | BObject data => Manager.modify (<["username" := JStr username]> data)
      | BValue _ => raise TypeError
      end.

End Handlers.
End Wsgi.

(** * What the statements speak of *)

(** The world after a closed connection met in [connect]: the answer is
    used up, the wait is slept through, the count goes up by one. *)
Definition backed_off (rest : list bool) (w : world) : world :=
  World (db w)
        (set_retries (retries (link w) + 1) (link w))
        rest (clock w) (rng w)
        (trace w ++ [Slept (retry_sleep_start (link w) * inject_Z (retries (link w) ^ 2))%Q]).

(** The sleeps of [k] closed connections in a row, the count starting at
    [from]. *)
Definition sleeps (start : Q) (from : Z) (k : nat) : list effect :=
  (λ n, Slept (start * inject_Z (n ^ 2))%Q) <$> seqZ from (Z.of_nat k).

(** The world after [k] closed connections in a row. *)
Definition backed_off_times (k : nat) (rest : list bool) (w : world) : world :=
  World (db w)
        (set_retries (retries (link w) + Z.of_nat k) (link w))
        rest (clock w) (rng w)
        (trace w ++ sleeps (retry_sleep_start (link w)) (retries (link w)) k).

Definition flaky_start : world :=
  World ∅ (Messenger "" 0 0 0) [false; false; false; false; true] 0 0 [].


(** A broker that answers from now on. *)
Definition healthy (w : world) : Prop := Forall (λ b, b = true) (broker w).

(** The world after [log] has published a message on a broker that answers:
    one answer used, one reading of the clock, one publication. *)
Definition logged `{Clock} (message : message) (w : world) : world :=
  World (db w) (link w) (tail (broker w)) (S (clock w)) (rng w)
        (trace w ++ [Published "log" "auth_logs" ""
                       (<["time" := PStr (now_to_rfc3339_utcoffset (clock w))]> message)
                       false]).

(** Two databases that differ at most in the password fields of their
    records. *)
Definition same_but_passwords (d1 d2 : gmap string (gmap string string)) : Prop :=
  ∀ k, delete "password" <$> d1 !! k = delete "password" <$> d2 !! k.

(** A fetched record as a caller sees it: the fields as strings, and in the
    safe view the password replaced by [None]. *)
Definition view (safe : bool) (record : gmap string string) : gmap string pyval :=
  if safe then <["password" := PNone]> (PStr <$> record) else PStr <$> record.

(** A method that ends by sending an event and returning [v]: the outcome of
    the event's [log], with [v] in place of its [None]. *)
Definition after {A} (r : result unit * world) (v : A) : result A * world :=
  (match r.1 with
   | Ok _ => Ok v
   | Raise e => Raise e
   end, r.2).

(** The world after [hmset] has written a mapping at a key. *)
Definition written (key : string) (mapping : gmap string json) (w : world) : world :=
  set_db (<[key := (str <$> mapping) ∪ default ∅ (db w !! key)]> (db w)) w.

(** What [modify] does once the password is seen to: drop [encrypted] and
    [username], write the rest, send the [changed] event. *)
Definition modify_rest `{Clock} (kwargs : gmap string json) (w : world) : result bool * world :=
  match kwargs !! "username" with
  | Some (JStr username) =>
    let fields := base.delete "username" (base.delete "encrypted" kwargs) in
    if bool_decide (fields = ∅) then (Raise DataError, w)
    else (Ok true,
          logged {[ "username" := PStr username;
                    "field" := PTuple (map_to_list fields).*1;
                    "action" := PStr "user:changed-field" ]}
                 (written (Manager.key username) fields w))
  | Some _ => (Raise TypeError, w)
  | None => (Raise (KeyError "username"), w)
  end.

(** ** Histories of calls *)

(** A call of one of the manager's methods. *)
Inductive call :=
| Add (kwargs : gmap string json)
| Modify (kwargs : gmap string json)
| Delete (username : string)
| Exists (username : string)
| Authenticate (username password : string) (system : bool)
| Get (username : string) (safe : bool)
| GetOneField (username field : string)
| ListUsers (safe : bool).

Definition returned {A} (r : result A * world) : bool * world :=
  (match r.1 with Ok _ => true | Raise _ => false end, r.2).

(** Make a call: whether it returned (rather than raised), and the world
    it leaves. *)
Definition perform `{Clock} `{Passlib} (c : call) (w : world) : bool * world :=
  match c with
  | Add kwargs => returned (Manager.add kwargs w)
  | Modify kwargs => returned (Manager.modify kwargs w)
  | Delete username => returned (Manager.delete username w)
  | Exists username => returned (Manager.exists_ username w)
  | Authenticate username password system =>
    returned (Manager.authenticate username password system w)
  | Get username safe => returned (Manager.get username safe w)
  | GetOneField username field => returned (Manager.get_one_field username field w)
  | ListUsers safe => returned (Manager.list_users safe w)
  end.

(** Make the calls one after the other: the history (each call with whether
    it returned) and the world they leave. *)
Fixpoint run `{Clock} `{Passlib} (calls : list call) (w : world) : list (call * bool) * world :=
  match calls with
  | [] => ([], w)
  | c :: calls =>
    let r := perform c w in
    let rs := run calls r.2 in
    ((c, r.1) :: rs.1, rs.2)
  end.

Definition names (kwargs : gmap string json) (username : string) : bool :=
  bool_decide (kwargs !! "username" = Some (JStr username)).

(** The specification's reading: a record is there if and only if an [add]
    for the username has returned and no [delete] for it has run since. *)
Fixpoint recorded_by_add (username : string) (history : list (call * bool))
    (before : bool) : bool :=
  match history with
  | [] => before
  | (Add kwargs, true) :: history =>
    recorded_by_add username history (names kwargs username || before)
  | (Delete username', _) :: history =>
    recorded_by_add username history (negb (String.eqb username' username) && before)
  | _ :: history => recorded_by_add username history before
  end.

(** The same with [modify] counted among the calls that make a record. *)
Fixpoint recorded (username : string) (history : list (call * bool))
    (before : bool) : bool :=
  match history with
  | [] => before
  | (Add kwargs, true) :: history
  | (Modify kwargs, true) :: history =>
    recorded username history (names kwargs username || before)
  | (Delete username', _) :: history =>
    recorded username history (negb (String.eqb username' username) && before)
  | _ :: history => recorded username history before
  end.

(** Whether the store holds a record for the username. *)
Definition present (username : string) (w : world) : bool :=
  bool_decide (is_Some (db w !! Manager.key username)).

(** A call that leaves the records as they are, and the broker answering. *)
Definition quiet {A} (r : result A * world) (w : world) : Prop :=
  db r.2 = db w ∧ healthy r.2.

(** ** Concrete values for the examples *)

(** A clock whose n-th reading is "T" and n strokes. *)
Definition toy_clock : Clock := λ n, "T" +:+ String.concat "" (replicate n "I").

(** A stand-in for pbkdf2_sha256 that is good enough to run the code on: the
    hash is the password behind a mark, whatever the salt. *)
Definition toy_passlib : Passlib :=
  {| pbkdf2_sha256_hash := λ salt p, String "#" p;
     pbkdf2_sha256_verify := λ q h,
       match h with
       | String c rest => if Ascii.eqb c "#" then Some (String.eqb rest q) else None
       | EmptyString => None
       end |}.

(** The NUL byte as a string. *)
Definition nul : string := String (ascii_of_N 0%N) EmptyString.

(** The key HMAC derives from a password (RFC 2104; PBKDF2-HMAC-SHA256 keys
    its HMAC with the password): a password of no more than one block of the
    digest, 64 bytes, is filled up to the block with NUL bytes. A longer one
    is digested first; here it is left as it is. *)
Definition hmac_key (password : string) : string :=
  password +:+ String.concat "" (replicate (64 - String.length password) nul).

(** A stand-in for pbkdf2_sha256 that keeps that much of it: the hash is the
    HMAC key of the password behind a mark, whatever the salt. *)
Definition keyed_passlib : Passlib :=
  {| pbkdf2_sha256_hash := λ salt p, String "#" (hmac_key p);
     pbkdf2_sha256_verify := λ q h,
       match h with
       | String c rest =>
         if Ascii.eqb c "#" then Some (String.eqb rest (hmac_key q)) else None
       | EmptyString => None
       end |}.

(** A fresh process: an empty database, a connected messenger with the
    default bounds, a broker that answers. *)
Definition fresh : world :=
  World ∅ (Messenger "amqp://localhost" 0 10 0.1%Q) [] 0 0 [].

Definition alice_record (hash : string) : gmap string string :=
  {[ "username" := "alice"; "password" := hash; "system" := "False" ]}.

Definition with_alice (hash : string) : world :=
  set_db {[ "user:alice" := alice_record hash ]} fresh.

(** "naïve": the third character is U+00EF. *)
Definition naive : string := "na" +:+ String (ascii_of_N 239%N) "ve".

(** Characters of the 7-bit ASCII range. *)
Definition seven_bit (c : ascii) : Prop := (N_of_ascii c <= 127)%N.

Definition story : list call :=
  [ Add {[ "username" := JStr "alice"; "password" := JStr "secret" ]};
    Modify {[ "username" := JStr "ghost"; "password" := JStr "pw" ]};
    Get "alice" true;
    Authenticate "alice" "secret" false;
    Delete "alice";
    Exists "alice" ].

(** ** For the further properties *)

(** Effects that are all sleeps. *)
Definition only_sleeps (effects : list effect) : Prop :=
  Forall (λ e, ∃ seconds, e = Slept seconds) effects.

(** A broker that closes every other connection: [n] times a closed
    connection, each followed by one that opens. *)
Fixpoint flapping (n : nat) (rest : list bool) : list bool :=
  match n with
  | O => rest
  | S n => false :: true :: flapping n rest
  end.

(** The connections the broker is to close: each makes [publish] or
    [connect] call itself once more, so their number bounds the depth of the
    recursion of one call. *)
Definition closed_connections (w : world) : nat :=
  length (filter (λ answer : bool, answer = false) (broker w)).

(** A depth of recursion that is within the interpreter's limit (1000 frames
    by default) with room for the frames of the caller. *)
Definition depth_budget : nat := 500.

(** A method that leaves the database as it is from every world. *)
Definition keeps_db {A} (m : M A) : Prop := ∀ w, db (m w).2 = db w.

(** The mapping [add] writes for its keyword arguments: the password hashed
    with the salt drawn unless [encrypted] is given and true, [encrypted]
    dropped, [system] set to what is given or to [False]. *)
Definition add_record `{Passlib} (salt : nat) (kwargs : gmap string json) : gmap string json :=
  <["system" := default (JBool false) (kwargs !! "system")]>
    (base.delete "encrypted"
       (if truthy (default (JBool false) (kwargs !! "encrypted")) then kwargs
        else match kwargs !! "password" with
             | Some (JStr password) =>
               <["password" := JStr (pbkdf2_sha256_hash salt password)]> kwargs
             | _ => kwargs
             end)).

(** The mapping [modify] writes for its keyword arguments: the password
    hashed with the salt drawn unless [encrypted] is given and true, and
    [encrypted] and [username] dropped. *)
Definition modify_fields `{Passlib} (salt : nat) (kwargs : gmap string json) : gmap string json :=
  base.delete "username"
    (base.delete "encrypted"
       (if truthy (default (JBool false) (kwargs !! "encrypted")) then kwargs
        else match kwargs !! "password" with
             | Some (JStr password) =>
               <["password" := JStr (pbkdf2_sha256_hash salt password)]> kwargs
             | _ => kwargs
             end)).

(** ** More concrete values for the examples *)

(** A connected messenger with the default bounds, before a broker that
    closes three connections and then opens one. *)
Definition three_closed : world := set_broker [false; false; false; true] fresh.

(** The same before a broker that closes and opens twelve times over. *)
Definition twelve_flaps : world := set_broker (flapping 12 []) fresh.


(** A store with the system account "svc" (password "pw") and with "alice"
    (password "secret"). *)
Definition with_service : world :=
  set_db {[ "user:svc" := {[ "username" := "svc"; "password" := "#pw";
                             "system" := "True" ]};
            "user:alice" := alice_record "#secret" ]} fresh.

Definition anonymous : Wsgi.request :=
  Wsgi.Request None (Wsgi.BValue JNull).

Definition alice_kwargs : gmap string json :=
  {[ "username" := JStr "alice"; "password" := JStr "secret" ]}.

(** * Facts about the event messenger *)

Section QueueFacts.

Import Queue.

Lemma bind_ok {A B} (m : M A) (f : A → M B) w a w' :
  m w = (Ok a, w') → (m ≫= f) w = f a w'.
Proof. intros E. unfold mbind, M_bind. by rewrite E. Qed.

Lemma bind_raise {A B} (m : M A) (f : A → M B) w e w' :
  m w = (Raise e, w') → (m ≫= f) w = (Raise e, w').
Proof. intros E. unfold mbind, M_bind. by rewrite E. Qed.

Lemma connect_fuel_bound fuel w :
  retries (link w) >= max_retries (link w) →
  connect_fuel (S fuel) w = (Raise (TooManyRetries (retries (link w))), w).
Proof.
  intros Hge. cbn. unfold mbind, M_bind, gets. cbn. rewrite bool_decide_eq_true_2; done.
Qed.

Lemma connect_fuel_closed fuel w rest :
  retries (link w) < max_retries (link w) →
  broker w = false :: rest →
  connect_fuel (S fuel) w = connect_fuel fuel (backed_off rest w).
Proof.
  intros Hlt Hb. cbn. unfold mbind, M_bind, gets. cbn. rewrite bool_decide_eq_false_2 by lia.
  unfold try_except, open_channels, broker_io, mbind, M_bind. cbn. rewrite Hb. cbn.
  done.
Qed.

Lemma connect_fuel_open fuel w :
  retries (link w) < max_retries (link w) →
  head (broker w) ≠ Some false →
  connect_fuel (S fuel) w =
    (Ok tt, set_link (set_retries 0 (link w)) (set_broker (tail (broker w)) w)).
Proof.
  intros Hlt Hb. cbn. unfold mbind, M_bind, gets. cbn. rewrite bool_decide_eq_false_2 by lia.
  unfold try_except, open_channels, broker_io, mbind, M_bind. cbn.
  destruct w as [d m b c g t]; cbn in *.
  destruct b as [|[] b]; cbn; try done.
Qed.

Lemma connect_fuel_closed_times k : ∀ fuel w rest,
  retries (link w) + Z.of_nat k <= max_retries (link w) →
  broker w = replicate k false ++ rest →
  connect_fuel (k + fuel) w = connect_fuel fuel (backed_off_times k rest w).
Proof.
  induction k as [|k IH]; intros fuel w rest Hle Hb.
  - destruct w as [d [u r mx st] b c g t]; cbn in *. subst b.
    unfold backed_off_times, sleeps; cbn.
    by rewrite Z.add_0_r, app_nil_r.
  - cbn [replicate app] in Hb. cbn [Nat.add].
    rewrite (connect_fuel_closed _ w (replicate k false ++ rest)); [|lia|done].
    rewrite (IH fuel (backed_off (replicate k false ++ rest) w) rest); [|cbn; lia|done].
    f_equal. destruct w as [d [u r mx st] b c g t]; cbn in *.
    unfold backed_off_times, backed_off, sleeps; cbn.
    f_equal; [unfold set_retries; cbn; f_equal; lia|].
    rewrite <- app_assoc. f_equal.
    rewrite (seqZ_cons r) by lia. cbn. do 3 f_equal; lia.
Qed.

(** One unfolding of [connect], by what the broker answers. *)
Lemma connect_fuel_S fuel w :
  connect_fuel (S fuel) w =
    if bool_decide (retries (link w) >= max_retries (link w)) then
      (Raise (TooManyRetries (retries (link w))), w)
    else
      match broker w with
      | false :: rest => connect_fuel fuel (backed_off rest w)
      | _ => (Ok tt, set_link (set_retries 0 (link w)) (set_broker (tail (broker w)) w))
      end.
Proof.
  case_bool_decide as Hr.
  - by apply connect_fuel_bound.
  - destruct (broker w) as [|[] rest] eqn:Hb.
    + rewrite connect_fuel_open, Hb; [done|lia|by rewrite Hb].
    + rewrite connect_fuel_open, Hb; [done|lia|by rewrite Hb].
    + apply connect_fuel_closed; [lia|done].
Qed.

(** One unfolding of [publish] on the log channel. *)
Lemma publish_fuel_S_log fuel exchange routing_key body persistent w :
  publish_fuel (S fuel) "log" exchange routing_key body persistent w =
    match broker w with
    | false :: rest =>
      match connect (set_broker rest w) with
      | (Ok _, w') => publish_fuel fuel "log" exchange routing_key body persistent w'
      | (Raise e, w') => (Raise e, w')
      end
    | _ => (Ok tt, set_trace (trace w ++ [Published "log" exchange routing_key body persistent])
                             (set_broker (tail (broker w)) w))
    end.
Proof.
  cbn [publish_fuel]. unfold try_except, basic_publish, broker_io.
  cbn [String.eqb Ascii.eqb Bool.eqb]. unfold mbind at 1, M_bind at 1.
  destruct w as [d m b c g t]. cbn [broker].
  destruct b as [|[] rest]; try reflexivity.
Qed.

(** The fuel [connect] and [publish] take is enough: they return or raise
    [TooManyRetries], and never use an answer the broker has not given. *)
Lemma connect_fuel_enough fuel : ∀ w,
  (length (broker w) < fuel)%nat →
  let r := connect_fuel fuel w in
  (r.1 = Ok tt ∨ ∃ n, r.1 = Raise (TooManyRetries n))
  ∧ (length (broker r.2) ≤ length (broker w))%nat.
Proof.
  induction fuel as [|fuel IH]; intros w Hlen; [lia|].
  cbn zeta. rewrite connect_fuel_S.
  case_bool_decide; [cbn; eauto|].
  destruct (broker w) as [|[] rest] eqn:Hb; cbn; rewrite ?Hb; cbn; eauto.
  cbn in Hlen.
  destruct (IH (backed_off rest w)) as [Hr Hl]; [cbn; lia|].
  cbn in Hl. split; [done|lia].
Qed.

Lemma publish_fuel_enough exchange routing_key body persistent fuel : ∀ w,
  (length (broker w) < fuel)%nat →
  let r := publish_fuel fuel "log" exchange routing_key body persistent w in
  r.1 = Ok tt ∨ ∃ n, r.1 = Raise (TooManyRetries n).
Proof.
  induction fuel as [|fuel IH]; intros w Hlen; [lia|].
  cbn zeta. rewrite publish_fuel_S_log.
  destruct (broker w) as [|[] rest] eqn:Hb; [cbn; eauto..|].
  cbn [length] in Hlen.
  destruct (connect_fuel_enough (S (length rest)) (set_broker rest w)) as [Hr Hl];
    [cbn; lia|].
  unfold connect. cbn [broker set_broker] in *.
  destruct (connect_fuel (S (length rest)) (set_broker rest w)) as [[[]|e] w'];
    cbn [fst snd] in *.
  - apply IH. lia.
  - destruct Hr as [|[n ?]]; [done|eauto].
Qed.

(** C5. A closed connection met in [connect] makes it sleep
    [retry_sleep_start * retries²] seconds, count one more retry and connect
    again; once [retries] has reached [max_retries], [connect] raises
    [TooManyRetries] and nothing else happens (no sleep). A messenger starts
    with [retries = 1]: [k] closed connections in a row while it is being
    built make it sleep [start * 1², start * 2², ..., start * k²], and then
    it connects if the bound is not reached, and raises if it is. *)
Theorem connect_backoff (w : world) :
  let self := link w in
  (∀ rest, retries self < max_retries self → broker w = false :: rest →
     connect w = connect (backed_off rest w))
  ∧ (retries self >= max_retries self →
     connect w = (Raise (TooManyRetries (retries self)), w))
  ∧ (∀ url mx start k rest,
       1 + Z.of_nat k < mx → broker w = replicate k false ++ true :: rest →
       init url mx start w =
         (Ok tt, World (db w) (Messenger url 0 mx start) rest (clock w) (rng w)
                       (trace w ++ sleeps start 1 k)))
  ∧ (∀ url mx start k rest,
       1 + Z.of_nat k = mx → broker w = replicate k false ++ rest →
       init url mx start w =
         (Raise (TooManyRetries mx),
          World (db w) (Messenger url mx mx start) rest (clock w) (rng w)
                (trace w ++ sleeps start 1 k))).
Proof.
  cbn zeta. repeat split.
  - intros rest Hlt Hb. unfold connect. rewrite Hb. cbn [length].
    by apply connect_fuel_closed.
  - intros Hge. by apply connect_fuel_bound.
  - intros u mx st k rest Hk Hb. unfold init.
    erewrite bind_ok by reflexivity. unfold connect. cbn [broker set_link].
    rewrite Hb, length_app, length_replicate.
    change (S (k + length (true :: rest))) with (S k + length (true :: rest))%nat.
    rewrite Nat.add_succ_comm.
    rewrite (connect_fuel_closed_times k _ _ (true :: rest)); [|cbn; lia|done].
    cbn [length]. rewrite connect_fuel_open; [|cbn; lia|done].
    reflexivity.
  - intros u mx st k rest Hk Hb. unfold init.
    erewrite bind_ok by reflexivity. unfold connect. cbn [broker set_link].
    rewrite Hb, length_app, length_replicate.
    change (S (k + length rest)) with (S k + length rest)%nat.
    rewrite Nat.add_succ_comm.
    rewrite (connect_fuel_closed_times k _ _ rest); [|cbn; lia|done].
    rewrite connect_fuel_bound by (cbn; lia).
    subst mx. reflexivity.
Qed.

End QueueFacts.

(** With the defaults ([max_retries = 10], [retry_sleep_start = 0.1]) and a
    broker that closes the first four connections: the messenger sleeps 0.1,
    0.4, 0.9 and 1.6 seconds and is then connected. *)
Lemma connect_backoff_witness :
  ∃ w', Queue.init "amqp://localhost" 10 0.1%Q flaky_start = (Ok tt, w')
        ∧ retries (link w') = 0
        ∧ Forall2 (λ e s, ∃ s', e = Slept s' ∧ (s' == s)%Q) (trace w')
                  [0.1; 0.4; 0.9; 1.6]%Q.
Proof.
  destruct (connect_backoff flaky_start) as (_ & _ & Hinit & _).
  eexists. split.
  - apply (Hinit "amqp://localhost" 10 0.1%Q 4%nat []); [lia | reflexivity].
  - split; [reflexivity|].
    repeat constructor; eexists; (split; [reflexivity | reflexivity]).
Defined.


(** * Facts about the credential store *)

Section ManagerFacts.
Context `{Clock}.

Import Manager.

Lemma healthy_cases w :
  healthy w → broker w = [] ∨ ∃ rest, broker w = true :: rest ∧ Forall (λ b, b = true) rest.
Proof.
  unfold healthy. destruct (broker w) as [|b rest]; [by left|].
  intros Hh. right. exists rest. by inversion Hh; subst.
Qed.

Lemma healthy_logged message w : healthy w → healthy (logged message w).
Proof.
  unfold healthy, logged; cbn. destruct (broker w); [done|].
  intros Hh. by inversion Hh.
Qed.

Lemma log_healthy message w :
  healthy w → Queue.log message w = (Ok tt, logged message w).
Proof.
  intros Hh. unfold Queue.log, Queue.publish.
  unfold mbind at 1, M_bind at 1. cbn [broker set_clock].
  destruct w as [d m b c g t]; cbn in *.
  destruct (healthy_cases _ Hh) as [Hb | (rest & Hb & _)]; cbn in Hb; subst b;
    reflexivity.
Qed.

(** The messenger neither reads nor writes the database. *)
Lemma connect_fuel_set_db d fuel : ∀ w,
  Queue.connect_fuel fuel (set_db d w) =
    ((Queue.connect_fuel fuel w).1, set_db d (Queue.connect_fuel fuel w).2).
Proof.
  induction fuel as [|fuel IH]; intros w; [done|].
  rewrite !connect_fuel_S. cbn [link broker set_db].
  case_bool_decide; [done|].
  destruct (broker w) as [|[] rest]; try done.
  apply (IH (backed_off rest w)).
Qed.

Lemma publish_fuel_set_db d exchange routing_key body persistent fuel : ∀ w,
  Queue.publish_fuel fuel "log" exchange routing_key body persistent (set_db d w) =
    ((Queue.publish_fuel fuel "log" exchange routing_key body persistent w).1,
     set_db d (Queue.publish_fuel fuel "log" exchange routing_key body persistent w).2).
Proof.
  induction fuel as [|fuel IH]; intros w; [done|].
  rewrite !publish_fuel_S_log. cbn [link broker set_db].
  destruct (broker w) as [|[] rest]; try done.
  unfold Queue.connect. cbn [broker set_broker].
  rewrite (connect_fuel_set_db d _ (set_broker rest w)).
  destruct (Queue.connect_fuel _ (set_broker rest w)) as [[[]|e] w']; cbn; [apply IH|done].
Qed.

Lemma log_set_db d message w :
  Queue.log message (set_db d w) =
    ((Queue.log message w).1, set_db d (Queue.log message w).2).
Proof.
  unfold Queue.log, Queue.publish, mbind, M_bind. cbn [broker set_db set_clock clock].
  apply (publish_fuel_set_db d _ _ _ _ _ (set_clock (S (clock w)) w)).
Qed.

(** [log] returns, or raises [TooManyRetries]. *)
Lemma log_total message w :
  (Queue.log message w).1 = Ok tt ∨ ∃ n, (Queue.log message w).1 = Raise (TooManyRetries n).
Proof.
  unfold Queue.log, Queue.publish, mbind, M_bind. cbn [broker set_clock].
  apply (publish_fuel_enough _ _ _ _ _ (set_clock (S (clock w)) w)). cbn. lia.
Qed.

(** ** The reply to HGETALL and its callbacks *)

Lemma pairs_flat (l : list (string * string)) :
  pairs (flat_map (λ kv, [kv.1; kv.2]) l) = l.
Proof. induction l as [|[k v] l IH]; cbn; [done|by rewrite IH]. Qed.

Lemma dict_foldl {V} (l : list (string * V)) : ∀ acc : gmap string V,
  NoDup l.*1 → (∀ k, k ∈ l.*1 → acc !! k = None) →
  foldl (λ d kv, <[kv.1 := kv.2]> d) acc l = list_to_map l ∪ acc.
Proof.
  induction l as [|[k v] l IH]; intros acc Hnd Hacc; cbn.
  - by rewrite (left_id_L ∅ (∪)).
  - inversion Hnd as [|? ? Hk Hnd']; subst.
    rewrite IH; [|done|].
    + rewrite <- insert_union_l, insert_union_r; [done|].
      by apply not_elem_of_list_to_map.
    + intros k' Hk'. cbn. rewrite lookup_insert_ne; [|by intros ->].
      apply Hacc. cbn. by apply list_elem_of_further.
Qed.

Lemma dict_map_to_list {V} (m : gmap string V) : dict (map_to_list m) = m.
Proof.
  unfold dict. rewrite dict_foldl.
  - by rewrite (right_id_L ∅ (∪)), list_to_map_to_list.
  - apply NoDup_fst_map_to_list.
  - intros; apply lookup_empty.
Qed.

Lemma run_callback_reply c key w :
  run_callback c (hgetall_reply key w) =
    view (match c with safe_user => true | pairs_to_dict => false end) (hash_at key w).
Proof.
  unfold hgetall_reply. destruct c; cbn; unfold _safe_user;
    by rewrite pairs_flat, dict_map_to_list.
Qed.

(** ** The reading methods, by the event they end with *)

Lemma bind_after {A} (m : M unit) (v : A) w : (m;; mret v) w = after (m w) v.
Proof. unfold mbind, M_bind, after. by destruct (m w) as [[[]|e] w']. Qed.

Lemma exists_after username w :
  exists_ username w =
    after (Queue.exists_ username (bool_decide (is_Some (db w !! key username))) w)
          (bool_decide (is_Some (db w !! key username))).
Proof.
  unfold exists_. erewrite bind_ok by reflexivity.
  rewrite bind_after. by case_bool_decide.
Qed.

Lemma get_after username safe w :
  get username safe w =
    after (Queue.viewed username w) (view safe (hash_at (key username) w)).
Proof.
  unfold get. erewrite bind_ok by reflexivity.
  unfold after, mbind, M_bind.
  destruct (Queue.viewed username w) as [[[]|e] w']; [|done].
  destruct safe; cbn; by rewrite run_callback_reply.
Qed.

Lemma command_stack_foldl keys : ∀ pipe,
  command_stack (foldl (λ pipe key, pipe_hgetall key pipe) pipe keys) =
    command_stack pipe ++ keys
  ∧ response_callbacks (foldl (λ pipe key, pipe_hgetall key pipe) pipe keys) =
    response_callbacks pipe.
Proof.
  induction keys as [|k keys IH]; intros pipe; cbn.
  - by rewrite app_nil_r.
  - destruct (IH (pipe_hgetall k pipe)) as [-> ->]. cbn.
    by rewrite <- app_assoc.
Qed.

Lemma list_users_after safe w :
  list_users safe w =
    after (Queue.viewed_listing w)
          ((λ k, view safe (hash_at k w)) <$>
             filter (λ k, String.prefix "user:" k = true) (elements (dom (db w)))).
Proof.
  unfold list_users. erewrite bind_ok by reflexivity.
  erewrite bind_ok by reflexivity.
  rewrite bind_after. f_equal.
  destruct (command_stack_foldl
              (filter (λ k, String.prefix "user:" k = true) (elements (dom (db w))))
              (if safe then set_response_callback "HGETALL" safe_user new_pipeline
               else new_pipeline)) as [-> ->].
  destruct safe; cbn; apply list_fmap_ext; intros i k _;
    by rewrite run_callback_reply.
Qed.

Lemma get_one_field_after username field w :
  field ≠ "password" →
  get_one_field username field w =
    after (Queue.viewed_field username [field] w)
          (PList [hash_at (key username) w !! field]).
Proof.
  intros Hf. unfold get_one_field.
  rewrite bool_decide_eq_false_2 by (by rewrite list_elem_of_singleton).
  erewrite bind_ok by reflexivity. by rewrite bind_after.
Qed.

(** ** The safe view *)

Lemma view_safe_password record : view true record !! "password" = Some PNone.
Proof. apply lookup_insert_eq. Qed.

Lemma view_safe_delete record :
  view true (base.delete "password" record) = view true record.
Proof.
  unfold view. apply map_eq; intros i.
  destruct (decide (i = "password")) as [->|Hi].
  - by rewrite !lookup_insert_eq.
  - by rewrite !lookup_insert_ne, !lookup_fmap, lookup_delete_ne.
Qed.

Lemma same_but_passwords_view d1 d2 k :
  same_but_passwords d1 d2 →
  view true (default ∅ (d1 !! k)) = view true (default ∅ (d2 !! k)).
Proof.
  intros Hs. specialize (Hs k).
  destruct (d1 !! k) as [r1|], (d2 !! k) as [r2|]; cbn in Hs; try done.
  cbn [default from_option id].
  rewrite <- (view_safe_delete r1), <- (view_safe_delete r2). congruence.
Qed.

Lemma same_but_passwords_dom d1 d2 :
  same_but_passwords d1 d2 → dom d1 = dom d2.
Proof.
  intros Hs. apply set_eq; intros k. rewrite !elem_of_dom.
  specialize (Hs k).
  destruct (d1 !! k), (d2 !! k); cbn in *; try done.
  all: split; intros [? ?]; done || eauto.
Qed.

Lemma after_fst_eq {A} (r1 r2 : result unit * world) (v1 v2 : A) :
  r1.1 = r2.1 → v1 = v2 → (after r1 v1).1 = (after r2 v2).1.
Proof. unfold after; cbn. by intros -> ->. Qed.

Lemma after_ok {A} (r : result unit * world) (v v' : A) :
  (after r v).1 = Ok v' → v' = v.
Proof. unfold after; cbn. destruct r.1; congruence. Qed.

(** C1. Whatever the passwords stored, the views handed to a caller do not
    depend on them: [get] and [list_users] in their default safe view, and
    [get_one_field] for a field other than the password, return the same on
    two databases that differ only in password fields. A record returned by
    [get] is the stored record with [password] set to [None], and every
    record returned by [list_users] has [password] set to [None]. *)
Theorem safe_views_hide_password (w : world) (username field : string)
    (d2 : gmap string (gmap string string)) :
  same_but_passwords (db w) d2 →
  ((get username true w).1 = (get username true (set_db d2 w)).1
   ∧ ∀ record, (get username true w).1 = Ok record →
       record = <["password" := PNone]> (PStr <$> hash_at (key username) w)
       ∧ record !! "password" = Some PNone)
  ∧ ((list_users true w).1 = (list_users true (set_db d2 w)).1
     ∧ ∀ records, (list_users true w).1 = Ok records →
         Forall (λ record, record !! "password" = Some PNone) records)
  ∧ (field ≠ "password" →
     (get_one_field username field w).1 = (get_one_field username field (set_db d2 w)).1
     ∧ ∀ v, (get_one_field username field w).1 = Ok v →
         v = PList [hash_at (key username) w !! field]).
Proof.
  intros Hs. split; [split|split; [split|intros Hf; split]].
  - rewrite !get_after. apply after_fst_eq.
    + unfold Queue.viewed. by rewrite log_set_db.
    + apply (same_but_passwords_view _ _ _ Hs).
  - intros record Hr. rewrite get_after in Hr. apply after_ok in Hr as ->.
    split; [done|apply view_safe_password].
  - rewrite !list_users_after. apply after_fst_eq.
    + unfold Queue.viewed_listing. by rewrite log_set_db.
    + cbn [db set_db]. rewrite <- (same_but_passwords_dom _ _ Hs).
      apply list_fmap_ext; intros i k _.
      apply (same_but_passwords_view _ _ _ Hs).
  - intros records Hr. rewrite list_users_after in Hr. apply after_ok in Hr as ->.
    apply Forall_fmap, Forall_forall. intros k _. apply view_safe_password.
  - rewrite !get_one_field_after by done. apply after_fst_eq.
    + unfold Queue.viewed_field. by rewrite log_set_db.
    + f_equal. f_equal. unfold hash_at; cbn [db set_db].
      specialize (Hs (key username)).
      destruct (db w !! key username) as [r1|], (d2 !! key username) as [r2|];
        cbn in *; try done.
      injection Hs as Hs.
      rewrite <- (lookup_delete_ne r1 "password" field) by done.
      rewrite <- (lookup_delete_ne r2 "password" field) by done.
      by rewrite Hs.
  - intros v Hv. rewrite get_one_field_after in Hv by done. by apply after_ok in Hv.
Qed.

(** ** On a broker that answers *)

Lemma after_logged {A} message (v : A) w :
  healthy w → after (Queue.log message w) v = (Ok v, logged message w).
Proof. intros Hh. by rewrite log_healthy. Qed.

Lemma exists_healthy username w :
  healthy w →
  exists_ username w =
    (Ok (bool_decide (is_Some (db w !! key username))),
     logged {[ "username" := PStr username;
               "exists?" := PBool (bool_decide (is_Some (db w !! key username)));
               "action" := PStr "user:exists" ]} w).
Proof. intros Hh. rewrite exists_after. by apply after_logged. Qed.

Lemma get_healthy username safe w :
  healthy w →
  get username safe w =
    (Ok (view safe (hash_at (key username) w)),
     logged {[ "username" := PStr username; "action" := PStr "user:viewed" ]} w).
Proof. intros Hh. rewrite get_after. by apply after_logged. Qed.

Lemma hash_at_logged key message w : hash_at key (logged message w) = hash_at key w.
Proof. done. Qed.

Lemma view_unsafe_lookup record field :
  view false record !! field = PStr <$> record !! field.
Proof. apply lookup_fmap. Qed.

Lemma view_unsafe_nonempty record field v :
  record !! field = Some v → view false record ≠ ∅.
Proof.
  intros Hf He. apply (f_equal (λ m : gmap string pyval, m !! field)) in He.
  rewrite view_unsafe_lookup, Hf, lookup_empty in He. done.
Qed.

(** C3. On a record whose stored system flag is not ['True'],
    [authenticate] with [system=True] returns [False] whatever the password:
    all it does is send the [viewed] event of its fetch and then the
    [failed] event with the stored flag; no password is verified. *)
Theorem system_scope_precedes_password (w : world) (username password : string)
    (record : gmap string string) (flag : string) `{Passlib} :
  healthy w →
  db w !! key username = Some record →
  record !! "system" = Some flag →
  flag ≠ "True" →
  ∃ w', authenticate username password true w = (Ok false, w')
        ∧ db w' = db w
        ∧ trace w' = trace w ++
            [ Published "log" "auth_logs" ""
                {[ "time" := PStr (now_to_rfc3339_utcoffset (clock w));
                   "username" := PStr username;
                   "action" := PStr "user:viewed" ]} false;
              Published "log" "auth_logs" ""
                {[ "time" := PStr (now_to_rfc3339_utcoffset (S (clock w)));
                   "username" := PStr username;
                   "system" := PStr flag;
                   "action" := PStr "user:failed-authorize" ]} false ].
Proof.
  intros Hh Hrec Hsys Hflag.
  assert (Hhash : hash_at (key username) w = record) by (unfold hash_at; by rewrite Hrec).
  eexists. split; [|split].
  - unfold authenticate.
    erewrite bind_ok by (by apply get_healthy).
    rewrite Hhash.
    rewrite bool_decide_eq_true_2 by (by eapply view_unsafe_nonempty).
    unfold getitem. rewrite view_unsafe_lookup, Hsys. cbn [fmap option_fmap option_map].
    erewrite bind_ok by reflexivity.
    rewrite bool_decide_eq_true_2 by congruence.
    erewrite bind_ok by reflexivity.
    unfold Queue.failed. rewrite bind_after.
    apply after_logged. by apply healthy_logged.
  - done.
  - cbn. by rewrite <- app_assoc.
Qed.

(** C10. For a username with no record, [get] in its default safe view
    returns the record of the single entry [password: None]: the callback
    puts the key into the empty mapping fetched. *)
Theorem get_missing_user (w : world) (username : string) :
  healthy w →
  db w !! key username = None →
  get username true w =
    (Ok {[ "password" := PNone ]},
     logged {[ "username" := PStr username; "action" := PStr "user:viewed" ]} w).
Proof.
  intros Hh Hnone. rewrite get_healthy by done.
  unfold hash_at, view. rewrite Hnone. cbn [default from_option id].
  by rewrite fmap_empty, insert_empty.
Qed.

(** ** Usernames *)

Lemma in_class_seven_bit c : in_class c = true ↔ seven_bit c.
Proof.
  unfold in_class, seven_bit. rewrite orb_true_iff, N.leb_le. split; [|by left].
  intros [Hc|Hc]; [done|]. apply Ascii.eqb_eq in Hc. by subst.
Qed.

Lemma class_plus_dollar_spec s :
  class_plus_dollar s = true ↔
    s ≠ EmptyString ∧ Forall seven_bit (list_ascii_of_string s).
Proof.
  induction s as [|c rest IH]; cbn [class_plus_dollar list_ascii_of_string].
  - split; [done|]. by intros [? _].
  - rewrite andb_true_iff, orb_true_iff, in_class_seven_bit, IH, Forall_cons.
    split.
    + intros [Hc [Hd|[_ Hrest]]]; (split; [done|split; [done|]]); [|done].
      destruct rest as [|c' [|c'' rest]]; cbn in Hd; try done.
      apply Ascii.eqb_eq in Hd. subst. cbn. repeat constructor. by vm_compute.
    + intros [_ [Hc Hrest]]. split; [done|].
      destruct rest as [|c' rest]; [by left|]. by right.
Qed.

Lemma add_bad_username kwargs username `{Passlib} w :
  valid kwargs add_schema = true →
  kwargs !! "username" = Some (JStr username) →
  validate_username username = false →
  add kwargs w = (Raise BadUsername, w).
Proof.
  intros Hv Hu Hbad. unfold add, jsonschema_validate. rewrite Hv.
  erewrite bind_ok by reflexivity.
  unfold getitem. rewrite Hu.
  erewrite bind_ok by reflexivity.
  by rewrite Hbad.
Qed.

(** C4, as the code has it. [validate_username] accepts exactly the
    non-empty strings of 7-bit ASCII characters (the [/] of the pattern is
    one of them). "alice", "svc/worker-1" and also "bad user" are accepted,
    the space being such a character; "naïve" is rejected. [add] raises
    [BadUsername], and does nothing else, for a rejected username. *)
Theorem validate_username_spec `{Passlib} :
  (∀ username, validate_username username = true ↔
     username ≠ EmptyString ∧ Forall seven_bit (list_ascii_of_string username))
  ∧ validate_username "alice" = true
  ∧ validate_username "svc/worker-1" = true
  ∧ validate_username "bad user" = true
  ∧ validate_username naive = false
  ∧ (∀ w kwargs username,
       valid kwargs add_schema = true →
       kwargs !! "username" = Some (JStr username) →
       validate_username username = false →
       add kwargs w = (Raise BadUsername, w)).
Proof.
  split; [|repeat split; try reflexivity].
  - intros username. unfold validate_username, re_match.
    rewrite <- class_plus_dollar_spec. by destruct (class_plus_dollar username).
  - intros w kwargs username. apply add_bad_username.
Qed.

(** ** [add] and [modify], path by path, on a broker that answers *)

Ltac step :=
  first [ erewrite bind_ok by reflexivity
        | erewrite bind_raise by reflexivity ].

Lemma getitem_some {V} (d : gmap string V) k v : d !! k = Some v → getitem d k = mret v.
Proof. unfold getitem. by intros ->. Qed.

Lemma getitem_none {V} (d : gmap string V) k : d !! k = None → getitem d k = raise (KeyError k).
Proof. unfold getitem. by intros ->. Qed.

Lemma hmset_written key mapping w :
  mapping ≠ ∅ → hmset key mapping w = (Ok true, written key mapping w).
Proof.
  intros Hne. unfold hmset. by rewrite bool_decide_eq_false_2.
Qed.

Lemma hash_step `{Passlib} (kwargs : gmap string json) w :
  (if negb (truthy (default (JBool false) (kwargs !! "encrypted"))) then
     password ← getitem kwargs "password" ≫= as_str;
     hash ← encrypt password;
     mret (<["password" := JStr hash]> kwargs)
   else mret kwargs) w =
  if truthy (default (JBool false) (kwargs !! "encrypted")) then (Ok kwargs, w)
  else match kwargs !! "password" with
       | Some (JStr password) =>
         (Ok (<["password" := JStr (pbkdf2_sha256_hash (rng w) password)]> kwargs),
          set_rng (S (rng w)) w)
       | Some _ => (Raise TypeError, w)
       | None => (Raise (KeyError "password"), w)
       end.
Proof.
  destruct (truthy _); [done|]. cbn [negb]. unfold getitem.
  destruct (kwargs !! "password") as [[]|]; reflexivity.
Qed.

Lemma add_healthy `{Passlib} kwargs w :
  healthy w →
  add kwargs w =
    if negb (valid kwargs add_schema) then (Raise ValidationError, w)
    else match kwargs !! "username" with
    | Some (JStr username) =>
      if negb (validate_username username) then (Raise BadUsername, w)
      else
        let taken := bool_decide (is_Some (db w !! key username)) in
        let w1 := logged {[ "username" := PStr username; "exists?" := PBool taken;
                            "action" := PStr "user:exists" ]} w in
        if taken then (Raise UserAlreadyExists, w1)
        else if truthy (default (JBool false) (kwargs !! "encrypted")) then
          (Ok username,
           logged {[ "username" := PStr username; "action" := PStr "user:added" ]}
             (written (key username)
                (<["system" := default (JBool false) (kwargs !! "system")]>
                   (base.delete "encrypted" kwargs)) w1))
        else match kwargs !! "password" with
        | Some (JStr password) =>
          (Ok username,
           logged {[ "username" := PStr username; "action" := PStr "user:added" ]}
             (written (key username)
                (<["system" := default (JBool false) (kwargs !! "system")]>
                   (base.delete "encrypted"
                      (<["password" := JStr (pbkdf2_sha256_hash (rng w) password)]> kwargs)))
                (set_rng (S (rng w)) w1)))
        | Some _ => (Raise TypeError, w1)
        | None => (Raise (KeyError "password"), w1)
        end
    | Some _ => (Raise TypeError, w)
    | None => (Raise (KeyError "username"), w)
    end.
Proof.
  intros Hh. unfold add, jsonschema_validate.
  destruct (valid kwargs add_schema); cbn [negb]; [|done].
  step.
  destruct (kwargs !! "username") as [[| | |username]|] eqn:Hu;
    [rewrite (getitem_some _ _ _ Hu)..|rewrite (getitem_none _ _ Hu)];
    try reflexivity.
  step. destruct (validate_username username); cbn [negb]; [|done].
  unfold mbind at 1, M_bind at 1. rewrite exists_healthy by done.
  cbn zeta. case_bool_decide as Htaken; [done|].
  step.
  assert (Hh1 := healthy_logged {[ "username" := PStr username; "exists?" := PBool false;
                                   "action" := PStr "user:exists" ]} w Hh).
  unfold mbind at 1, M_bind at 1. rewrite hash_step.
  destruct (truthy _).
  - rewrite lookup_delete_ne by done.
    step. unfold mbind at 1, M_bind at 1.
    rewrite hmset_written by apply insert_non_empty.
    unfold getitem. rewrite lookup_insert_ne, lookup_delete_ne, Hu by done.
    step. unfold Queue.added. rewrite bind_after.
    by apply after_logged.
  - destruct (kwargs !! "password") as [[| | |password]|] eqn:Hp; try reflexivity.
    rewrite lookup_delete_ne, lookup_insert_ne by done.
    step. unfold mbind at 1, M_bind at 1.
    rewrite hmset_written by apply insert_non_empty.
    unfold getitem.
    rewrite lookup_insert_ne, lookup_delete_ne, lookup_insert_ne, Hu by done.
    step. unfold Queue.added. rewrite bind_after.
    by apply after_logged.
Qed.

Lemma modify_healthy `{Passlib} kwargs w :
  healthy w →
  modify kwargs w =
    if negb (valid kwargs schema) then (Raise ValidationError, w)
    else if truthy (default (JBool false) (kwargs !! "encrypted")) then
      modify_rest kwargs w
    else match kwargs !! "password" with
    | Some (JStr password) =>
      modify_rest (<["password" := JStr (pbkdf2_sha256_hash (rng w) password)]> kwargs)
                  (set_rng (S (rng w)) w)
    | Some _ => (Raise TypeError, w)
    | None => (Raise (KeyError "password"), w)
    end.
Proof.
  intros Hh. unfold modify, jsonschema_validate.
  destruct (valid kwargs schema); cbn [negb]; [|done].
  do 2 step.
  unfold mbind at 1, M_bind at 1. rewrite hash_step.
  assert (Hrest : ∀ kwargs0 w0, healthy w0 →
    (username ← getitem (base.delete "encrypted" kwargs0) "username" ≫= as_str;
     result ← hmset (key username) (base.delete "username" (base.delete "encrypted" kwargs0));
     Queue.changed username (map_to_list (base.delete "username" (base.delete "encrypted" kwargs0))).*1;;
     mret result) w0 = modify_rest kwargs0 w0).
  { intros kwargs0 w0 Hh0. unfold modify_rest.
    assert (Hu' : base.delete "encrypted" kwargs0 !! "username" = kwargs0 !! "username")
      by (by rewrite lookup_delete_ne).
    destruct (kwargs0 !! "username") as [[| | |username]|] eqn:Hu;
      [rewrite (getitem_some _ _ _ Hu')..|rewrite (getitem_none _ _ Hu')];
      try reflexivity.
    step. unfold hmset. case_bool_decide as He.
    - reflexivity.
    - step. rewrite bind_after. unfold Queue.changed.
      rewrite after_logged; [done|]. done. }
  destruct (truthy _).
  - by apply Hrest.
  - destruct (kwargs !! "password") as [[| | |password]|]; try reflexivity.
    by apply Hrest.
Qed.

(** C6. [add] for a username whose key is in the store changes nothing in
    the store and sends no [added] event: it raises before it writes, and
    the only event it can have sent is the [exists] event of its check. With
    arguments that pass the schema and a username that passes the
    validation, what it raises is [UserAlreadyExists]. *)
Theorem add_existing_user `{Passlib} (w : world) (kwargs : gmap string json)
    (username : string) :
  healthy w →
  kwargs !! "username" = Some (JStr username) →
  is_Some (db w !! key username) →
  let r := add kwargs w in
  db r.2 = db w
  ∧ (r.1 = Raise ValidationError ∧ trace r.2 = trace w
     ∨ r.1 = Raise BadUsername ∧ trace r.2 = trace w
     ∨ r.1 = Raise UserAlreadyExists
       ∧ trace r.2 = trace w ++
           [ Published "log" "auth_logs" ""
               {[ "time" := PStr (now_to_rfc3339_utcoffset (clock w));
                  "username" := PStr username;
                  "exists?" := PBool true;
                  "action" := PStr "user:exists" ]} false ])
  ∧ (valid kwargs add_schema = true → validate_username username = true →
     r.1 = Raise UserAlreadyExists).
Proof.
  intros Hh Hu Htaken. cbn zeta. rewrite add_healthy, Hu by done.
  destruct (valid kwargs add_schema); cbn [negb fst snd];
    [|split; [done|split; [by left|done]]].
  destruct (validate_username username); cbn [negb fst snd];
    [|split; [done|split; [by right; left|done]]].
  rewrite bool_decide_eq_true_2 by done. cbn zeta. cbn [fst snd].
  split; [done|]. split; [|done]. right. right. split; [done|].
  reflexivity.
Qed.

(** ** [authenticate] on a stored record *)

Lemma authenticate_healthy `{Passlib} username password w record flag hash :
  healthy w →
  db w !! key username = Some record →
  record !! "system" = Some flag →
  record !! "password" = Some hash →
  (authenticate username password false w).1 =
    match pbkdf2_sha256_verify password hash with
    | Some b => Ok b
    | None => Raise ValueError
    end.
Proof.
  intros Hh Hrec Hsys Hpw.
  assert (Hhash : hash_at (key username) w = record) by (unfold hash_at; by rewrite Hrec).
  unfold authenticate.
  erewrite bind_ok by (by apply get_healthy).
  rewrite Hhash.
  rewrite bool_decide_eq_true_2 by (by eapply view_unsafe_nonempty).
  step.
  rewrite (getitem_some _ "system" (PStr flag)) by (by rewrite view_unsafe_lookup, Hsys).
  step.
  unfold mbind at 1, M_bind at 1. unfold Queue.authorized.
  rewrite log_healthy by (by apply healthy_logged).
  rewrite (getitem_some _ "password" (PStr hash)) by (by rewrite view_unsafe_lookup, Hpw).
  step. unfold verify. step.
  by destruct (pbkdf2_sha256_verify password hash).
Qed.

(** C2, as the code has it. After an [add] that returned (the password
    given in the clear, the broker answering), [authenticate] with the same
    username and password returns [True]; and it returns [False] with every
    wrong password that pbkdf2_sha256 does not verify against the hash
    [add] has stored, which is the hash of the password with the salt
    drawn. Whether a password other than the one given verifies is the
    library's answer, not the manager's. *)
Theorem add_then_authenticate `{Passlib} `{!PasslibVerifies}
    (w w1 : world) (kwargs : gmap string json) (username password : string) :
  healthy w →
  kwargs !! "password" = Some (JStr password) →
  truthy (default (JBool false) (kwargs !! "encrypted")) = false →
  add kwargs w = (Ok username, w1) →
  (authenticate username password false w1).1 = Ok true
  ∧ ∀ wrong_password,
      pbkdf2_sha256_verify wrong_password (pbkdf2_sha256_hash (rng w) password)
        = Some false →
      (authenticate username wrong_password false w1).1 = Ok false.
Proof.
  intros Hh Hpw Henc Hadd. rewrite add_healthy in Hadd by done.
  destruct (valid kwargs add_schema); cbn [negb] in Hadd; [|done].
  destruct (kwargs !! "username") as [[| | |u]|]; try done.
  destruct (validate_username u); cbn [negb] in Hadd; [|done].
  cbn zeta in Hadd. case_bool_decide; [done|].
  rewrite Henc, Hpw in Hadd. injection Hadd as -> <-.
  set (stored := <["system" := _]> _).
  assert (Hh1 : healthy (logged {[ "username" := PStr username; "action" := PStr "user:added" ]}
                 (written (key username) stored
                    (set_rng (S (rng w))
                       (logged {[ "username" := PStr username; "exists?" := PBool false;
                                  "action" := PStr "user:exists" ]} w))))).
  { apply healthy_logged. by apply healthy_logged. }
  assert (Hrec : ∀ password',
    (authenticate username password' false
       (logged {[ "username" := PStr username; "action" := PStr "user:added" ]}
          (written (key username) stored
             (set_rng (S (rng w))
                (logged {[ "username" := PStr username; "exists?" := PBool false;
                           "action" := PStr "user:exists" ]} w))))).1 =
    match pbkdf2_sha256_verify password' (pbkdf2_sha256_hash (rng w) password) with
    | Some b => Ok b
    | None => Raise ValueError
    end).
  { intros password'.
    eapply (authenticate_healthy username password' _ _
              (str (default (JBool false) (kwargs !! "system")))
              (pbkdf2_sha256_hash (rng w) password));
      [done|by apply lookup_insert_eq|..].
    - apply lookup_union_Some_l. rewrite lookup_fmap.
      subst stored. by rewrite lookup_insert_eq.
    - apply lookup_union_Some_l. rewrite lookup_fmap.
      subst stored.
      by rewrite lookup_insert_ne, lookup_delete_ne, lookup_insert_eq. }
  split.
  - by rewrite Hrec, verify_own_hash.
  - intros wrong Hwrong. by rewrite Hrec, Hwrong.
Qed.

(** C8, where the code departs from it. [modify] passes its arguments
    through the schema that requires the username only, but then reads
    [kwargs['password']] unless [encrypted] is given and true: without a
    password it raises [KeyError] and writes nothing. *)
Theorem modify_without_password `{Passlib} (w : world) (kwargs : gmap string json) :
  valid kwargs schema = true →
  kwargs !! "password" = None →
  truthy (default (JBool false) (kwargs !! "encrypted")) = false →
  modify kwargs w = (Raise (KeyError "password"), w).
Proof.
  intros Hv Hpw Henc. unfold modify, jsonschema_validate. rewrite Hv.
  do 2 step. unfold mbind at 1, M_bind at 1.
  by rewrite hash_step, Henc, Hpw.
Qed.

(** C9, where the code departs from it. A request for the password raises
    [FieldNotFound] before anything is read, whoever the user. For a field
    the record does not have, [get_one_field] returns the list of one [None]
    that [hmget] gives, not [None]; the gateway, which tests the result
    against [None] to answer "Field does not exist", passes the list on. *)
Theorem get_one_field_absent_field :
  (∀ w username, get_one_field username "password" w = (Raise FieldNotFound, w))
  ∧ (∀ w username field,
       healthy w → field ≠ "password" → hash_at (key username) w !! field = None →
       (get_one_field username field w).1 = Ok (PList [None]))
  ∧ (∀ w username field record,
       healthy w → field ≠ "password" →
       db w !! key username = Some record → record !! field = None →
       (Wsgi.get_user_field username field w).1 = Ok (PList [None])).
Proof.
  split; [done|]. split.
  - intros w username field Hh Hf Hnone.
    rewrite get_one_field_after by done.
    unfold Queue.viewed_field. rewrite after_logged by done. cbn. by rewrite Hnone.
  - intros w username field record Hh Hf Hrec Hnone.
    unfold Wsgi.get_user_field.
    unfold mbind at 1, M_bind at 1. rewrite exists_healthy by done.
    rewrite bool_decide_eq_true_2 by (by rewrite Hrec). cbn [negb].
    unfold try_except, mbind, M_bind.
    rewrite get_one_field_after by done.
    unfold Queue.viewed_field. rewrite after_logged by (by apply healthy_logged).
    rewrite hash_at_logged. unfold hash_at. rewrite Hrec. cbn [default from_option id].
    rewrite Hnone. reflexivity.
Qed.

(** ** Which calls make and remove records *)

Lemma key_inj username username' : key username = key username' → username = username'.
Proof. unfold key. cbn. intros Hk. by simplify_eq. Qed.

Lemma present_logged username message w :
  present username (logged message w) = present username w.
Proof. done. Qed.

Lemma present_written username username' mapping w :
  present username (written (key username') mapping w) =
    bool_decide (username' = username) || present username w.
Proof.
  unfold present, written. cbn [db set_db].
  destruct (decide (username' = username)) as [->|Hu].
  - rewrite lookup_insert_eq, (bool_decide_eq_true_2 (username = username)) by done.
    by apply bool_decide_eq_true_2.
  - rewrite lookup_insert_ne, (bool_decide_eq_false_2 (username' = username)) by
      (done || (intros Hk; by apply key_inj in Hk)).
    done.
Qed.

Lemma quiet_after {A} message (v : A) w w0 :
  healthy w → db w = db w0 → quiet (after (Queue.log message w) v) w0.
Proof. intros Hh Hdb. rewrite after_logged by done. split; [done|by apply healthy_logged]. Qed.

Lemma authenticate_quiet `{Passlib} username password system w :
  healthy w → quiet (authenticate username password system w) w.
Proof.
  intros Hh. unfold authenticate.
  erewrite bind_ok by (by apply get_healthy).
  set (w1 := logged _ w). assert (Hh1 : healthy w1) by (by apply healthy_logged).
  set (user := view false _).
  assert (Hfailed : ∀ flag, quiet ((Queue.failed username flag;; mret false) w1) w).
  { intros flag. rewrite bind_after. by apply quiet_after. }
  case_bool_decide; [|apply Hfailed].
  assert (Hrest : ∀ b : bool, quiet
    ((if b then
        flag ← getitem user "system"; Queue.failed username flag;; mret false
      else
        flag ← getitem user "system"; Queue.authorized username flag;;
        hash ← getitem user "password"; verify password hash) w1) w).
  { intros b.
    destruct (user !! "system") as [flag|] eqn:Hs;
      [rewrite (getitem_some _ _ _ Hs)|rewrite (getitem_none _ _ Hs)];
      [|destruct b; step; by split].
    destruct b; step; [apply Hfailed|].
    unfold mbind at 1, M_bind at 1. unfold Queue.authorized.
    rewrite log_healthy by done.
    set (w2 := logged _ w1). assert (Hh2 : healthy w2) by (by apply healthy_logged).
    destruct (user !! "password") as [hash|] eqn:Hp;
      [rewrite (getitem_some _ _ _ Hp)|rewrite (getitem_none _ _ Hp)];
      [|step; by split].
    step. unfold verify. destruct hash; try (by split).
    step. destruct (pbkdf2_sha256_verify password s); by split. }
  destruct system.
  - destruct (user !! "system") as [flag|] eqn:Hflag.
    + rewrite (getitem_some user "system" flag Hflag) at 1. step. apply Hrest.
    + rewrite (getitem_none user "system" Hflag) at 1. step. by split.
  - step. apply (Hrest false).
Qed.

Lemma recorded_cons username x history before :
  recorded username (x :: history) before =
    recorded username history (recorded username [x] before).
Proof. destruct x as [[] []]; reflexivity. Qed.

Lemma quiet_present {A} username (r : result A * world) w :
  quiet r w → healthy r.2 ∧ present username r.2 = present username w.
Proof. intros [Hdb Hh]. split; [done|]. unfold present. by rewrite Hdb. Qed.

Lemma modify_rest_present username kwargs w :
  healthy w →
  healthy (modify_rest kwargs w).2
  ∧ present username (modify_rest kwargs w).2 =
      recorded username [(Modify kwargs, (returned (modify_rest kwargs w)).1)]
               (present username w).
Proof.
  intros Hh. unfold modify_rest, returned. cbn [recorded]. unfold names.
  destruct (kwargs !! "username") as [[| | |u]|]; try done.
  case_bool_decide; [done|]. cbn [fst snd].
  split; [by apply healthy_logged|].
  rewrite present_logged, present_written.
  f_equal. apply bool_decide_ext. split; congruence.
Qed.

Lemma perform_present `{Passlib} c username w :
  healthy w →
  healthy (perform c w).2
  ∧ present username (perform c w).2 =
      recorded username [(c, (perform c w).1)] (present username w).
Proof.
  intros Hh. destruct c as [kwargs|kwargs|u|u|u p sys|u safe|u f|safe];
    cbn [perform].
  - unfold returned. rewrite add_healthy by done. cbn [recorded]. unfold names.
    destruct (valid kwargs add_schema); cbn [negb fst snd]; [|done].
    destruct (kwargs !! "username") as [[| | |u]|]; try done.
    destruct (validate_username u); cbn [negb fst snd]; [|done].
    cbn zeta. case_bool_decide; cbn [fst snd]; [split; [by apply healthy_logged|done]|].
    assert (Hn : bool_decide (Some (JStr u) = Some (JStr username)) = bool_decide (u = username))
      by (apply bool_decide_ext; split; congruence).
    destruct (truthy _).
    + cbn [fst snd]. split; [by do 2 apply healthy_logged|].
      by rewrite present_logged, present_written, present_logged, Hn.
    + destruct (kwargs !! "password") as [[| | |p]|]; cbn [fst snd];
        try (split; [by apply healthy_logged|done]).
      split; [by do 2 apply healthy_logged|].
      by rewrite present_logged, present_written, Hn.
  - rewrite modify_healthy by done.
    destruct (valid kwargs schema); cbn [negb]; [|done].
    destruct (truthy _); [by apply modify_rest_present|].
    destruct (kwargs !! "password") as [[| | |p]|] eqn:Hp; try done.
    destruct (modify_rest_present username
                (<["password" := JStr (pbkdf2_sha256_hash (rng w) p)]> kwargs)
                (set_rng (S (rng w)) w) Hh) as [Hh' Hp'].
    split; [done|]. change (returned ?r).2 with r.2. rewrite Hp'.
    cbn [recorded returned fst snd].
    unfold names. rewrite lookup_insert_ne by done.
    by destruct (modify_rest _ _).1.
  - unfold Manager.delete, returned, mbind, M_bind, redis_delete, mret, M_ret.
    cbn [recorded]. unfold present.
    destruct (db w !! key u) eqn:Hu; cbn [fst snd db set_db].
    + split; [done|]. destruct (String.eqb_spec u username) as [->|Hne]; cbn [negb andb].
      * rewrite lookup_delete_eq. by apply bool_decide_eq_false_2, is_Some_None.
      * rewrite lookup_delete_ne; [done|]. intros Hk. by apply key_inj in Hk.
    + split; [done|]. destruct (String.eqb_spec u username) as [->|Hne]; cbn [negb andb]; [|done].
      rewrite Hu. by apply bool_decide_eq_false_2, is_Some_None.
  - rewrite exists_after. unfold Queue.exists_.
    apply quiet_present. by apply quiet_after.
  - apply quiet_present. by apply authenticate_quiet.
  - rewrite get_after. apply quiet_present. by apply quiet_after.
  - unfold get_one_field. case_bool_decide; [done|].
    step. rewrite bind_after. apply quiet_present. by apply quiet_after.
  - rewrite list_users_after. apply quiet_present. by apply quiet_after.
Qed.

(** C7, as the code has it. On a broker that answers, along any history of
    calls, the store holds a record for a username if and only if a call of
    [add] or of [modify] for that username has returned and no [delete] for
    it has run since (or the record was there at the start and no [delete]
    for it has run): those two make records, [delete] alone removes them,
    and no other call does either. (The broker is to answer because [add]
    and [modify] write before they publish their event: a call that the
    broker makes fail has written without returning.) *)
Theorem records_follow_history `{Passlib} (calls : list call) (username : string) :
  ∀ w, healthy w →
       present username (run calls w).2 =
         recorded username (run calls w).1 (present username w).
Proof.
  induction calls as [|c calls IH]; intros w Hh; [done|].
  cbn [run fst snd]. rewrite recorded_cons.
  destruct (perform_present c username w Hh) as [Hh' <-].
  by apply IH.
Qed.

End ManagerFacts.

Lemma alice_same_but_passwords h1 h2 :
  same_but_passwords (db (with_alice h1)) (db (with_alice h2)).
Proof.
  intros k. cbn. destruct (decide (k = "user:alice")) as [->|Hk].
  - rewrite !lookup_singleton_eq. reflexivity.
  - by rewrite !lookup_singleton_ne.
Qed.

(** Alice's record under two password hashes: the views are the same. *)
Lemma safe_views_hide_password_witness :
  (@Manager.get toy_clock "alice" true (with_alice "$one")).1
    = (@Manager.get toy_clock "alice" true
         (set_db (db (with_alice "$two")) (with_alice "$one"))).1
  ∧ (@Manager.list_users toy_clock true (with_alice "$one")).1
    = (@Manager.list_users toy_clock true
         (set_db (db (with_alice "$two")) (with_alice "$one"))).1
  ∧ (@Manager.get_one_field toy_clock "alice" "system" (with_alice "$one")).1
    = (@Manager.get_one_field toy_clock "alice" "system"
         (set_db (db (with_alice "$two")) (with_alice "$one"))).1.
Proof.
  destruct (@safe_views_hide_password toy_clock (with_alice "$one") "alice" "system"
              (db (with_alice "$two")) (alice_same_but_passwords _ _))
    as ((Hget & _) & (Hlist & _) & Hfield).
  destruct (Hfield ltac:(discriminate)) as [Hfield' _].
  exact (conj Hget (conj Hlist Hfield')).
Defined.


(** Alice is not a system account: her own password does not get her
    through a system-scoped check. *)
Lemma system_scope_precedes_password_witness :
  ∃ w', @Manager.authenticate toy_clock toy_passlib "alice" "secret" true
          (with_alice "#secret") = (Ok false, w')
        ∧ db w' = db (with_alice "#secret").
Proof.
  destruct (@system_scope_precedes_password toy_clock (with_alice "#secret")
              "alice" "secret" (alice_record "#secret") "False" toy_passlib)
    as (w' & Hauth & Hdb & _).
  - by constructor.
  - reflexivity.
  - reflexivity.
  - discriminate.
  - exists w'. exact (conj Hauth Hdb).
Defined.

(** No record of "ghost" in a fresh store: its safe view is [password: None]. *)
Lemma get_missing_user_witness :
  (@Manager.get toy_clock "ghost" true fresh).1 = Ok {[ "password" := PNone ]}.
Proof.
  rewrite (@get_missing_user toy_clock fresh "ghost"); [reflexivity|by constructor|reflexivity].
Defined.

(** "bad user" is not rejected: the claim's example fails on the code. *)
Lemma bad_user_is_accepted :
  Manager.validate_username "bad user" = true
  ∧ (@Manager.add toy_clock toy_passlib
       {[ "username" := JStr "bad user"; "password" := JStr "pw" ]} fresh).1
    = Ok "bad user".
Proof. split; vm_compute; reflexivity. Qed.

Lemma validate_username_spec_witness :
  @Manager.add toy_clock toy_passlib
     {[ "username" := JStr naive; "password" := JStr "pw" ]} fresh
  = (Raise BadUsername, fresh).
Proof.
  destruct (@validate_username_spec toy_clock toy_passlib) as (_ & _ & _ & _ & _ & Hadd).
  apply (Hadd fresh _ naive); reflexivity.
Defined.

(** "alice" added to a fresh store, then removed; "ghost" never added but
    modified. *)
Lemma records_follow_history_witness :
  present "alice" (@run toy_clock toy_passlib story fresh).2 =
    recorded "alice" (@run toy_clock toy_passlib story fresh).1 (present "alice" fresh)
  ∧ present "ghost" (@run toy_clock toy_passlib story fresh).2 =
      recorded "ghost" (@run toy_clock toy_passlib story fresh).1 (present "ghost" fresh).
Proof.
  split; apply (@records_follow_history toy_clock toy_passlib); by constructor.
Defined.

(** [modify] for a username that was never added leaves a record: the
    reading that only [add] makes records fails on the code. *)
Lemma modify_makes_a_record :
  let r := @run toy_clock toy_passlib
             [Modify {[ "username" := JStr "ghost"; "password" := JStr "pw" ]}] fresh in
  present "ghost" fresh = false
  ∧ r.1 = [(Modify {[ "username" := JStr "ghost"; "password" := JStr "pw" ]}, true)]
  ∧ present "ghost" r.2 = true
  ∧ recorded_by_add "ghost" r.1 (present "ghost" fresh) = false.
Proof. vm_compute. done. Qed.

Lemma add_existing_user_witness :
  (@Manager.add toy_clock toy_passlib
     {[ "username" := JStr "alice"; "password" := JStr "other" ]}
     (with_alice "#secret")).1 = Raise UserAlreadyExists
  ∧ db (@Manager.add toy_clock toy_passlib
          {[ "username" := JStr "alice"; "password" := JStr "other" ]}
          (with_alice "#secret")).2 = db (with_alice "#secret").
Proof.
  destruct (@add_existing_user toy_clock toy_passlib (with_alice "#secret")
              {[ "username" := JStr "alice"; "password" := JStr "other" ]} "alice")
    as (Hdb & _ & Hraise).
  - by constructor.
  - reflexivity.
  - by eexists.
  - split; [apply Hraise; reflexivity|exact Hdb].
Defined.

Lemma toy_verifies : @PasslibVerifies toy_passlib.
Proof. intros salt p. cbn. by rewrite String.eqb_refl. Qed.

Lemma keyed_verifies : @PasslibVerifies keyed_passlib.
Proof. intros salt p. cbn. by rewrite String.eqb_refl. Qed.

(** "alice" added to a fresh store with the password "secret". *)
Lemma add_then_authenticate_witness :
  let w1 := (@Manager.add toy_clock toy_passlib
               {[ "username" := JStr "alice"; "password" := JStr "secret" ]} fresh).2 in
  (@Manager.authenticate toy_clock toy_passlib "alice" "secret" false w1).1 = Ok true
  ∧ (@Manager.authenticate toy_clock toy_passlib "alice" "guess" false w1).1 = Ok false.
Proof.
  cbn zeta.
  destruct (@add_then_authenticate toy_clock toy_passlib toy_verifies
              fresh
              (@Manager.add toy_clock toy_passlib
                 {[ "username" := JStr "alice"; "password" := JStr "secret" ]} fresh).2
              {[ "username" := JStr "alice"; "password" := JStr "secret" ]}
              "alice" "secret") as [Hright Hwrong].
  - by constructor.
  - reflexivity.
  - reflexivity.
  - reflexivity.
  - split; [exact Hright|apply Hwrong; reflexivity].
Defined.

(** The password followed by a NUL byte is another password, and it
    authenticates: HMAC fills both up to the same key, so pbkdf2_sha256
    derives the same hash from them. "alice" is added to a fresh store with
    the password "secret", the library standing in with its key. *)
Lemma nul_padded_password_authenticates :
  let added := @Manager.add toy_clock keyed_passlib
                 {[ "username" := JStr "alice"; "password" := JStr "secret" ]} fresh in
  added.1 = Ok "alice"
  ∧ "secret" +:+ nul ≠ "secret"
  ∧ (@Manager.authenticate toy_clock keyed_passlib "alice" ("secret" +:+ nul) false
       added.2).1 = Ok true.
Proof. vm_compute. by repeat split. Qed.

(** Alice's system flag alone, without a password: [KeyError]. *)
Lemma modify_without_password_witness :
  @Manager.modify toy_clock toy_passlib
     {[ "username" := JStr "alice"; "system" := JBool true ]} (with_alice "#secret")
  = (Raise (KeyError "password"), with_alice "#secret").
Proof.
  apply (@modify_without_password toy_clock toy_passlib); reflexivity.
Defined.

(** Alice has no nickname: a list of one [None] comes back, through the
    gateway too. *)
Lemma get_one_field_absent_field_witness :
  (@Manager.get_one_field toy_clock "alice" "nickname" (with_alice "#secret")).1
    = Ok (PList [None])
  ∧ (@Wsgi.get_user_field toy_clock "alice" "nickname" (with_alice "#secret")).1
    = Ok (PList [None]).
Proof.
  destruct (@get_one_field_absent_field toy_clock) as (_ & Hfield & Hgateway).
  split.
  - apply Hfield; [by constructor|discriminate|reflexivity].
  - apply (Hgateway _ _ _ (alice_record "#secret")); [by constructor|discriminate|reflexivity..].
Defined.

(** * Further properties of the event messenger *)

Section QueueMore.

Import Queue.

Lemma only_sleeps_app e1 e2 : only_sleeps e1 → only_sleeps e2 → only_sleeps (e1 ++ e2).
Proof. apply Forall_app_2. Qed.

(** What [connect] leaves in the trace is sleeps, whether it returns or
    raises. *)
Lemma connect_fuel_trace fuel : ∀ w,
  (length (broker w) < fuel)%nat →
  ∃ waits, only_sleeps waits
    ∧ trace (connect_fuel fuel w).2 = trace w ++ waits
    ∧ db (connect_fuel fuel w).2 = db w
    ∧ clock (connect_fuel fuel w).2 = clock w
    ∧ rng (connect_fuel fuel w).2 = rng w.
Proof.
  induction fuel as [|fuel IH]; intros w Hlen; [lia|].
  rewrite connect_fuel_S.
  case_bool_decide.
  { exists []. rewrite app_nil_r. by repeat split; try constructor. }
  destruct (broker w) as [|[] rest] eqn:Hb.
  1,2: exists []; rewrite app_nil_r; by repeat split; try constructor.
  cbn [length] in Hlen.
  destruct (IH (backed_off rest w)) as (waits & Hs & Ht & Hd & Hc & Hr); [cbn; lia|].
  exists (Slept (retry_sleep_start (link w) * inject_Z (retries (link w) ^ 2))%Q :: waits).
  split; [constructor; eauto|].
  rewrite Ht, Hd, Hc, Hr. cbn. by rewrite <- app_assoc.
Qed.

(** One unfolding of [publish] on either channel. *)
Lemma publish_fuel_S fuel channel exchange routing_key body persistent w :
  channel = "job" ∨ channel = "log" →
  publish_fuel (S fuel) channel exchange routing_key body persistent w =
    match broker w with
    | false :: rest =>
      match connect (set_broker rest w) with
      | (Ok _, w') => publish_fuel fuel channel exchange routing_key body persistent w'
      | (Raise e, w') => (Raise e, w')
      end
    | _ => (Ok tt, set_trace (trace w ++ [Published channel exchange routing_key body persistent])
                             (set_broker (tail (broker w)) w))
    end.
Proof.
  intros [-> | ->]; cbn [publish_fuel]; unfold try_except, basic_publish, broker_io;
    cbn [String.eqb Ascii.eqb Bool.eqb]; unfold mbind at 1, M_bind at 1;
    destruct w as [d m b c g t]; cbn [broker];
    destruct b as [|[] rest]; reflexivity.
Qed.

Lemma publish_fuel_once channel exchange routing_key body persistent fuel : ∀ w,
  channel = "job" ∨ channel = "log" →
  (length (broker w) < fuel)%nat →
  let r := publish_fuel fuel channel exchange routing_key body persistent w in
  db r.2 = db w ∧ clock r.2 = clock w ∧ rng r.2 = rng w
  ∧ ∃ waits, only_sleeps waits
      ∧ (r.1 = Ok tt
         ∧ trace r.2 = trace w ++ waits ++
                         [Published channel exchange routing_key body persistent]
         ∨ (∃ n, r.1 = Raise (TooManyRetries n)) ∧ trace r.2 = trace w ++ waits).
Proof.
  induction fuel as [|fuel IH]; intros w Hch Hlen; [lia|].
  cbn zeta. rewrite publish_fuel_S by done.
  destruct (broker w) as [|[] rest] eqn:Hb.
  1,2: repeat split; exists []; (split; [constructor|by left]).
  cbn [length] in Hlen. unfold connect. cbn [broker set_broker].
  destruct (connect_fuel_enough (S (length rest)) (set_broker rest w)) as [Hr Hl];
    [cbn; lia|].
  destruct (connect_fuel_trace (S (length rest)) (set_broker rest w))
    as (waits & Hs & Ht & Hd & Hc & Hg); [cbn; lia|].
  cbn [broker set_broker trace db clock rng] in *.
  destruct (connect_fuel (S (length rest)) (set_broker rest w)) as [[[]|e] w'];
    cbn [fst snd] in *.
  - destruct (IH w' Hch) as (Hd' & Hc' & Hg' & waits' & Hs' & Hcase); [lia|].
    cbn zeta in *. rewrite Hd', Hc', Hg'. repeat split; try done.
    exists (waits ++ waits'). split; [by apply only_sleeps_app|].
    rewrite Ht in Hcase. destruct Hcase as [[-> ->] | [Hn ->]].
    + left. split; [done|]. by rewrite <- !app_assoc.
    + right. split; [done|]. by rewrite <- !app_assoc.
  - repeat split; try done. exists waits. split; [done|]. right.
    destruct Hr as [|Hn]; [done|]. by split.
Qed.

(** X1. [publish] on the job or the log channel publishes the message once
    or not at all, on a broker that closes no more connections than the
    depth of recursion allows: either it returns, and what it has done is
    sleep (between reconnections) and then publish the message, once; or it
    raises [TooManyRetries], and what it has done is sleep. It leaves the
    database alone. *)
Theorem publish_once (channel exchange routing_key : string) (body : message)
    (persistent : bool) (w : world) :
  channel = "job" ∨ channel = "log" →
  (closed_connections w ≤ depth_budget)%nat →
  let r := publish channel exchange routing_key body persistent w in
  db r.2 = db w
  ∧ ∃ waits, only_sleeps waits
      ∧ (r.1 = Ok tt
         ∧ trace r.2 = trace w ++ waits ++
                         [Published channel exchange routing_key body persistent]
         ∨ (∃ n, r.1 = Raise (TooManyRetries n)) ∧ trace r.2 = trace w ++ waits).
Proof.
  intros Hch _. cbn zeta. unfold publish.
  destruct (publish_fuel_once channel exchange routing_key body persistent
              (S (length (broker w))) w Hch) as (Hd & _ & _ & Hw); [lia|].
  by split.
Qed.

Lemma connect_closed_then_open k rest w :
  retries (link w) + Z.of_nat k < max_retries (link w) →
  broker w = replicate k false ++ true :: rest →
  connect w =
    (Ok tt, World (db w) (set_retries 0 (link w)) rest (clock w) (rng w)
                  (trace w ++ sleeps (retry_sleep_start (link w)) (retries (link w)) k)).
Proof.
  intros Hk Hb. unfold connect.
  rewrite Hb, length_app, length_replicate.
  change (S (k + length (true :: rest))) with (S k + length (true :: rest))%nat.
  rewrite Nat.add_succ_comm.
  rewrite (connect_fuel_closed_times k _ _ (true :: rest)); [|lia|done].
  cbn [length]. rewrite connect_fuel_open; [|cbn; lia|done].
  reflexivity.
Qed.

(** X2. A connected messenger (its count of retries is 0) whose publication
    meets a closed connection reconnects: after [k] more closed connections
    in a row, fewer than [max_retries], it has slept
    [start * 0², start * 1², ..., start * (k-1)²] seconds (the first wait is
    zero), is connected again with the count back at 0, and has published
    the message once. *)
Theorem publish_reconnects (w : world) (k : nat) (rest : list bool)
    (exchange routing_key : string) (body : message) (persistent : bool) :
  retries (link w) = 0 →
  Z.of_nat k < max_retries (link w) →
  broker w = false :: replicate k false ++ true :: rest →
  head rest ≠ Some false →
  publish "log" exchange routing_key body persistent w =
    (Ok tt, World (db w) (link w) (tail rest) (clock w) (rng w)
                  (trace w ++ sleeps (retry_sleep_start (link w)) 0 k ++
                     [Published "log" exchange routing_key body persistent])).
Proof.
  intros Hr Hk Hb Hrest. unfold publish. rewrite publish_fuel_S_log, Hb.
  rewrite (connect_closed_then_open k rest); [|cbn; lia|done].
  cbn [link broker trace db clock rng set_broker length].
  rewrite publish_fuel_S_log. cbn [broker trace].
  destruct w as [d [u r mx st] b c g t]. cbn in *. subst r.
  destruct rest as [|[] rest']; try done; cbn; by rewrite <- app_assoc.
Qed.

Lemma publish_fuel_flapping exchange routing_key body persistent rest n : ∀ fuel w,
  retries (link w) = 0 →
  0 < max_retries (link w) →
  broker w = flapping n rest →
  head rest ≠ Some false →
  (length (broker w) < fuel)%nat →
  publish_fuel fuel "log" exchange routing_key body persistent w =
    (Ok tt, World (db w) (link w) (tail rest) (clock w) (rng w)
                  (trace w ++ [Published "log" exchange routing_key body persistent])).
Proof.
  induction n as [|n IH]; intros fuel w Hr Hmax Hb Hrest Hlen;
    (destruct fuel as [|fuel]; [lia|]); rewrite publish_fuel_S_log, Hb;
    cbn [flapping].
  - destruct w as [d m b c g t]. cbn in *. subst b.
    by destruct rest as [|[] rest'].
  - unfold connect. cbn [broker set_broker length].
    rewrite connect_fuel_open; [|cbn; lia|done].
    cbn [broker set_broker tail].
    rewrite Hb in Hlen. cbn [flapping length] in Hlen.
    rewrite IH; cbn; try done; try lia.
    destruct w as [d [u r mx st] b c g t]. cbn in *. by subst r.
Qed.

(** X3. The bound counts closed connections in a row only. On a broker that
    closes the connection at every publication and opens it at every
    reconnection, [n] times over, [n] within the depth of recursion allowed,
    [publish] returns having published the message once and without a
    sleep, also when [n] is [max_retries] or more: each reconnection that
    succeeds sets the count back to 0. *)
Theorem publish_flapping (w : world) (n : nat) (rest : list bool)
    (exchange routing_key : string) (body : message) (persistent : bool) :
  retries (link w) = 0 →
  0 < max_retries (link w) →
  (n ≤ depth_budget)%nat →
  broker w = flapping n rest →
  head rest ≠ Some false →
  publish "log" exchange routing_key body persistent w =
    (Ok tt, World (db w) (link w) (tail rest) (clock w) (rng w)
                  (trace w ++ [Published "log" exchange routing_key body persistent])).
Proof.
  intros Hr Hmax _ Hb Hrest. unfold publish.
  apply (publish_fuel_flapping _ _ _ _ rest n); try done. lia.
Qed.

Lemma connect_fuel_raised fuel : ∀ w n,
  (connect_fuel fuel w).1 = Raise (TooManyRetries n) →
  retries (link (connect_fuel fuel w).2) = n
  ∧ n >= max_retries (link (connect_fuel fuel w).2).
Proof.
  induction fuel as [|fuel IH]; intros w n; [done|].
  rewrite connect_fuel_S. case_bool_decide as Hge.
  - cbn. intros [= <-]. done.
  - destruct (broker w) as [|[] rest]; try done. apply IH.
Qed.

(** X28. A messenger built with [max_retries] of 1 or less never connects:
    its count starts at 1, which is at the bound already, so [__init__]
    raises [TooManyRetries] without trying the broker and without a
    sleep. *)
Theorem init_bound_of_one (w : world) (url : string) (mx : Z) (start : Q) :
  mx <= 1 →
  init url mx start w =
    (Raise (TooManyRetries 1), set_link (Messenger url 1 mx start) w).
Proof.
  intros Hmx. unfold init. erewrite bind_ok by reflexivity.
  unfold connect. rewrite connect_fuel_S. cbn [link set_link retries max_retries].
  by rewrite bool_decide_eq_true_2 by lia.
Qed.

(** X4. [TooManyRetries] is final: once [connect] has raised it, the count
    it reports is the messenger's count, at or over the bound, and every
    later [connect] raises it again at once, without trying the broker and
    without a sleep. *)
Theorem too_many_retries_is_final (w : world) (n : Z) :
  (connect w).1 = Raise (TooManyRetries n) →
  let w' := (connect w).2 in
  retries (link w') = n
  ∧ n >= max_retries (link w')
  ∧ connect w' = (Raise (TooManyRetries n), w').
Proof.
  intros Hraised. cbn zeta.
  destruct (connect_fuel_raised _ _ _ Hraised) as [Hn Hge].
  fold (connect w) in Hn, Hge.
  repeat split; try done.
  unfold connect at 1. rewrite connect_fuel_S.
  rewrite bool_decide_eq_true_2 by lia. by rewrite Hn.
Qed.

End QueueMore.

(** * Further properties of the credential store *)

Ltac step :=
  first [ erewrite bind_ok by reflexivity
        | erewrite bind_raise by reflexivity ].

Section ManagerMore.
Context `{Clock}.

Import Manager.

(** ** Methods that only read *)

Lemma keeps_ret {A} (a : A) : keeps_db (mret a).
Proof. done. Qed.

Lemma keeps_raise {A} e : keeps_db (raise (A := A) e).
Proof. done. Qed.

Lemma keeps_gets {A} (f : world → A) : keeps_db (gets f).
Proof. done. Qed.

Lemma keeps_bind {A B} (m : M A) (f : A → M B) :
  keeps_db m → (∀ a, keeps_db (f a)) → keeps_db (m ≫= f).
Proof.
  intros Hm Hf w. unfold mbind, M_bind. specialize (Hm w).
  destruct (m w) as [[a|e] w']; cbn in *; [|done].
  by rewrite Hf.
Qed.

Lemma keeps_getitem {V} (d : gmap string V) k : keeps_db (getitem d k).
Proof. unfold getitem. by destruct (d !! k). Qed.

Lemma keeps_log message : keeps_db (Queue.log message).
Proof.
  intros w. unfold Queue.log, mbind, M_bind.
  destruct (publish_fuel_once "log" "auth_logs" ""
              (<["time" := PStr (now_to_rfc3339_utcoffset (clock w))]> message) false
              (S (length (broker w))) (set_clock (S (clock w)) w)) as [Hd _];
    [by right|cbn; lia|].
  exact Hd.
Qed.

Lemma keeps_verify `{Passlib} password hash : keeps_db (verify password hash).
Proof.
  unfold verify. destruct hash; try apply keeps_raise.
  apply keeps_bind; [done|]. intros _.
  destruct (pbkdf2_sha256_verify password s); [apply keeps_ret|apply keeps_raise].
Qed.

Lemma keeps_execute pipe : keeps_db (execute pipe).
Proof. done. Qed.

Lemma keeps_get username safe : keeps_db (get username safe).
Proof.
  unfold get. apply keeps_bind; [apply keeps_execute|]. intros result.
  apply keeps_bind; [apply keeps_log|]. intros _.
  destruct result; [apply keeps_raise|apply keeps_ret].
Qed.

Lemma keeps_authenticate `{Passlib} username password system :
  keeps_db (authenticate username password system).
Proof.
  unfold authenticate. apply keeps_bind; [apply keeps_get|]. intros user.
  case_bool_decide.
  - apply keeps_bind.
    + destruct system; [|apply keeps_ret].
      apply keeps_bind; [apply keeps_getitem|]. intros flag. apply keeps_ret.
    + intros [].
      * apply keeps_bind; [apply keeps_getitem|]. intros flag.
        apply keeps_bind; [apply keeps_log|]. intros _. apply keeps_ret.
      * apply keeps_bind; [apply keeps_getitem|]. intros flag.
        apply keeps_bind; [apply keeps_log|]. intros _.
        apply keeps_bind; [apply keeps_getitem|]. intros hash.
        apply keeps_verify.
  - apply keeps_bind; [apply keeps_log|]. intros _. apply keeps_ret.
Qed.

(** X5. The methods that read leave every record as it is, whatever the
    broker does and whether they return or raise: [exists], [get],
    [list_users], [get_one_field] and [authenticate] never write to the
    database. *)
Theorem reading_keeps_the_database `{Passlib} (w : world)
    (username password field : string) (safe system : bool) :
  db (exists_ username w).2 = db w
  ∧ db (get username safe w).2 = db w
  ∧ db (list_users safe w).2 = db w
  ∧ db (get_one_field username field w).2 = db w
  ∧ db (authenticate username password system w).2 = db w.
Proof.
  repeat split.
  - apply keeps_bind; [apply keeps_gets|]. intros n.
    apply keeps_bind; [apply keeps_log|]. intros _. apply keeps_ret.
  - apply keeps_get.
  - apply keeps_bind; [apply keeps_gets|]. intros keys.
    apply keeps_bind; [apply keeps_execute|]. intros result.
    apply keeps_bind; [apply keeps_log|]. intros _. apply keeps_ret.
  - unfold get_one_field. case_bool_decide; [done|].
    apply keeps_bind; [apply keeps_gets|]. intros result.
    apply keeps_bind; [apply keeps_log|]. intros _. apply keeps_ret.
  - apply keeps_authenticate.
Qed.

(** ** [exists] and [delete] *)

(** X6. On a broker that answers, [exists] returns whether the store holds
    a record under the username's key, leaves the database as it is, and
    sends one event, which carries the answer it returns. *)
Theorem exists_reports (w : world) (username : string) :
  healthy w →
  ∃ w', exists_ username w = (Ok (present username w), w')
        ∧ db w' = db w
        ∧ trace w' = trace w ++
            [ Published "log" "auth_logs" ""
                {[ "time" := PStr (now_to_rfc3339_utcoffset (clock w));
                   "username" := PStr username;
                   "exists?" := PBool (present username w);
                   "action" := PStr "user:exists" ]} false ].
Proof.
  intros Hh. eexists. split; [by apply exists_healthy|]. done.
Qed.

Lemma set_db_same w : set_db (db w) w = w.
Proof. by destruct w. Qed.

(** [delete], in full. *)
Lemma delete_spec (w : world) (username : string) :
  Manager.delete username w =
    (Ok (if present username w then 1 else 0),
     set_db (base.delete (key username) (db w)) w)
  ∧ present username (Manager.delete username w).2 = false
  ∧ ∀ other, other ≠ username →
      db (Manager.delete username w).2 !! key other = db w !! key other.
Proof.
  assert (Heq : Manager.delete username w =
    (Ok (if present username w then 1 else 0),
     set_db (base.delete (key username) (db w)) w)).
  { unfold Manager.delete, redis_delete, present, mbind, M_bind, mret, M_ret.
    destruct (db w !! key username) eqn:Hk.
    - by rewrite bool_decide_eq_true_2.
    - rewrite bool_decide_eq_false_2 by (by apply is_Some_None).
      by rewrite delete_id, set_db_same. }
  rewrite Heq. split; [done|]. cbn [snd db set_db]. split.
  - unfold present. cbn [db set_db]. rewrite lookup_delete_eq.
    by apply bool_decide_eq_false_2, is_Some_None.
  - intros other Hne. rewrite lookup_delete_ne; [done|].
    intros Hk. by apply key_inj in Hk.
Qed.

(** X7. [delete] returns 1 and removes the record when the store holds one
    for the username, and returns 0 when it holds none; either way the
    records of the other usernames stay, no event is sent, and the broker
    is not used. *)
Theorem delete_removes (w : world) (username : string) :
  Manager.delete username w =
    (Ok (if present username w then 1 else 0),
     set_db (base.delete (key username) (db w)) w)
  ∧ present username (Manager.delete username w).2 = false
  ∧ ∀ other, other ≠ username →
      db (Manager.delete username w).2 !! key other = db w !! key other.
Proof. apply delete_spec. Qed.

(** ** [authenticate] *)







(** ** [add] *)

Lemma written_fresh key mapping w :
  db w !! key = None →
  db (written key mapping w) = <[key := str <$> mapping]> (db w).
Proof.
  intros Hnone. unfold written. cbn [db set_db]. rewrite Hnone.
  cbn [default from_option id]. by rewrite (right_id_L ∅ (∪)).
Qed.

(** What a returning [add] has found and done. *)
Lemma add_returned `{Passlib} kwargs w username w1 :
  healthy w →
  add kwargs w = (Ok username, w1) →
  valid kwargs add_schema = true
  ∧ kwargs !! "username" = Some (JStr username)
  ∧ validate_username username = true
  ∧ db w !! key username = None
  ∧ healthy w1
  ∧ db w1 = <[key username := str <$> add_record (rng w) kwargs]> (db w).
Proof.
  intros Hh Hadd. rewrite add_healthy in Hadd by done.
  destruct (valid kwargs add_schema) eqn:Hvalid; cbn [negb] in Hadd; [|done].
  destruct (kwargs !! "username") as [[| | |u]|] eqn:Hu; try done.
  destruct (validate_username u) eqn:Hvu; cbn [negb] in Hadd; [|done].
  cbn zeta in Hadd. case_bool_decide as Htaken; [done|].
  apply eq_None_not_Some in Htaken.
  unfold add_record.
  destruct (truthy _).
  - injection Hadd as -> <-.
    split; [done|]. split; [done|]. split; [done|]. split; [done|].
    split; [by do 2 apply healthy_logged|].
    cbn [db logged]. by rewrite written_fresh.
  - destruct (kwargs !! "password") as [[| | |p]|]; try done.
    injection Hadd as -> <-.
    split; [done|]. split; [done|]. split; [done|]. split; [done|].
    split; [by do 2 apply healthy_logged|].
    cbn [db logged]. by rewrite written_fresh.
Qed.

(** X10. On a broker that answers, [add] writes all or nothing: when it
    raises, the database is as it was; when it returns a username, the
    store held no record for it before, holds now the mapping written at
    its key, and the records of the other usernames are as they were. *)
Theorem add_all_or_nothing `{Passlib} (w : world) (kwargs : gmap string json) :
  healthy w →
  match (add kwargs w).1 with
  | Ok username =>
    db w !! key username = None
    ∧ db (add kwargs w).2 !! key username = Some (str <$> add_record (rng w) kwargs)
    ∧ ∀ k, k ≠ key username → db (add kwargs w).2 !! k = db w !! k
  | Raise _ => db (add kwargs w).2 = db w
  end.
Proof.
  intros Hh. destruct (add kwargs w) as [[username|e] w1] eqn:Hadd; cbn [fst snd].
  - destruct (add_returned _ _ _ _ Hh Hadd) as (_ & _ & _ & Hnone & _ & ->).
    split; [done|]. split; [apply lookup_insert_eq|].
    intros k Hk. by rewrite lookup_insert_ne.
  - rewrite add_healthy in Hadd by done.
    destruct (valid kwargs add_schema); cbn [negb] in Hadd; [|by injection Hadd as _ <-].
    destruct (kwargs !! "username") as [[| | |u]|]; try (by injection Hadd as _ <-).
    destruct (validate_username u); cbn [negb] in Hadd; [|by injection Hadd as _ <-].
    cbn zeta in Hadd. case_bool_decide; [by injection Hadd as _ <-|].
    destruct (truthy _); [done|].
    destruct (kwargs !! "password") as [[| | |p]|]; try done; by injection Hadd as _ <-.
Qed.







Lemma valid_required (kwargs : gmap string json) (s : json_schema) name :
  name ∈ required s → kwargs !! name = None → valid kwargs s = false.
Proof.
  intros Hin Hnone. unfold valid. apply andb_false_iff. left.
  apply not_true_iff_false. rewrite forallb_forall. intros Hall.
  apply list_elem_of_In in Hin. specialize (Hall _ Hin).
  apply bool_decide_eq_true in Hall. rewrite Hnone in Hall. by destruct Hall.
Qed.

Lemma valid_typed (kwargs : gmap string json) (s : json_schema) name p v :
  (name, p) ∈ properties s → kwargs !! name = Some v → has_type (ptype p) v = false →
  valid kwargs s = false.
Proof.
  intros Hin Hv Ht. unfold valid. apply andb_false_iff. right.
  apply not_true_iff_false. rewrite forallb_forall. intros Hall.
  apply list_elem_of_In in Hin. specialize (Hall _ Hin). cbn in Hall.
  rewrite Hv in Hall. congruence.
Qed.

(** X14. Arguments that do not pass the schema get [ValidationError] and
    nothing else happens (no event, nothing written, no salt drawn): [add]
    without a username or without a password, [modify] without a username,
    and either of them with a username or a password that is not a string
    or an [encrypted] or [system] that is not a boolean. *)
Theorem schema_is_checked_first `{Passlib} (w : world) (kwargs : gmap string json) :
  (kwargs !! "username" = None ∨ kwargs !! "password" = None →
   add kwargs w = (Raise ValidationError, w))
  ∧ (kwargs !! "username" = None →
     modify kwargs w = (Raise ValidationError, w))
  ∧ (∀ name v,
       kwargs !! name = Some v →
       (name = "username" ∨ name = "password") ∧ (∀ s, v ≠ JStr s)
       ∨ (name = "encrypted" ∨ name = "system") ∧ (∀ b, v ≠ JBool b) →
       add kwargs w = (Raise ValidationError, w)
       ∧ modify kwargs w = (Raise ValidationError, w)).
Proof.
  assert (Hadd : valid kwargs add_schema = false → add kwargs w = (Raise ValidationError, w)).
  { intros Hv. unfold add, jsonschema_validate. rewrite Hv. by step. }
  assert (Hmod : valid kwargs schema = false → modify kwargs w = (Raise ValidationError, w)).
  { intros Hv. unfold modify, jsonschema_validate. rewrite Hv. by step. }
  split; [|split].
  - intros [Hnone|Hnone]; apply Hadd.
    + apply (valid_required _ _ "username"); [|done]. cbn. set_solver.
    + apply (valid_required _ _ "password"); [|done]. cbn. set_solver.
  - intros Hnone. apply Hmod.
    apply (valid_required _ _ "username"); [|done]. cbn. set_solver.
  - intros name v Hv Hbad.
    assert (∃ p, (name, p) ∈ properties schema ∧ has_type (ptype p) v = false)
      as (p & Hin & Ht).
    { destruct Hbad as [[[-> | ->] Hs] | [[-> | ->] Hb]].
      - exists (Property TString None). split; [cbn; set_solver|].
        destruct v; try done. by destruct (Hs s).
      - exists (Property TString None). split; [cbn; set_solver|].
        destruct v; try done. by destruct (Hs s).
      - exists (Property TBoolean (Some (JBool false))). split; [cbn; set_solver|].
        destruct v; try done. by destruct (Hb b).
      - exists (Property TBoolean (Some (JBool false))). split; [cbn; set_solver|].
        destruct v; try done. by destruct (Hb b). }
    split.
    + apply Hadd. by apply (valid_typed _ _ name p v).
    + apply Hmod. by apply (valid_typed _ _ name p v).
Qed.




(** ** [modify] *)

(** What a returning [modify] has found and done. *)
Lemma modify_returned `{Passlib} kwargs w (b : bool) w1 :
  healthy w →
  modify kwargs w = (Ok b, w1) →
  b = true
  ∧ modify_fields (rng w) kwargs ≠ ∅
  ∧ ∃ username,
      kwargs !! "username" = Some (JStr username)
      ∧ healthy w1
      ∧ db w1 = <[key username := (str <$> modify_fields (rng w) kwargs)
                                    ∪ hash_at (key username) w]> (db w)
      ∧ ∃ w', trace w1 = trace w' ++
                [ Published "log" "auth_logs" ""
                    {[ "time" := PStr (now_to_rfc3339_utcoffset (clock w));
                       "username" := PStr username;
                       "field" := PTuple (map_to_list (modify_fields (rng w) kwargs)).*1;
                       "action" := PStr "user:changed-field" ]} false ]
              ∧ trace w' = trace w.
Proof.
  intros Hh Hmod. rewrite modify_healthy in Hmod by done.
  destruct (valid kwargs schema); cbn [negb] in Hmod; [|done].
  unfold modify_fields.
  assert (Hrest : ∀ kwargs0 w0,
    healthy w0 → db w0 = db w → trace w0 = trace w → clock w0 = clock w →
    kwargs0 !! "username" = kwargs !! "username" →
    modify_rest kwargs0 w0 = (Ok b, w1) →
    b = true
    ∧ base.delete "username" (base.delete "encrypted" kwargs0) ≠ ∅
    ∧ ∃ username,
        kwargs !! "username" = Some (JStr username)
        ∧ healthy w1
        ∧ db w1 = <[key username :=
                      (str <$> base.delete "username" (base.delete "encrypted" kwargs0))
                      ∪ hash_at (key username) w]> (db w)
        ∧ ∃ w', trace w1 = trace w' ++
                  [ Published "log" "auth_logs" ""
                      {[ "time" := PStr (now_to_rfc3339_utcoffset (clock w));
                         "username" := PStr username;
                         "field" := PTuple (map_to_list
                            (base.delete "username" (base.delete "encrypted" kwargs0))).*1;
                         "action" := PStr "user:changed-field" ]} false ]
                ∧ trace w' = trace w).
  { intros kwargs0 w0 Hh0 Hdb Htr Hcl Hu0 Hrest. unfold modify_rest in Hrest.
    rewrite Hu0 in Hrest.
    destruct (kwargs !! "username") as [[| | |u]|]; try done.
    case_bool_decide as Hne; [done|].
    injection Hrest as <- <-. split; [done|]. split; [done|].
    exists u. split; [done|]. split; [by apply healthy_logged|].
    split.
    - cbn [db logged]. unfold written, hash_at. cbn [db set_db]. by rewrite Hdb.
    - exists w0. split; [|done]. cbn. by rewrite Hcl. }
  destruct (truthy _).
  - by apply (Hrest kwargs w).
  - destruct (kwargs !! "password") as [[| | |p]|]; try done.
    apply (Hrest _ (set_rng (S (rng w)) w)); try done.
    by rewrite lookup_insert_ne.
Qed.

(** X16. What a returning [modify] has done, on a broker that answers: it
    returns [True]; in the user's record every field given other than
    [username] and [encrypted] (and the password, which is hashed) now holds
    the value given, as [str] writes it; the fields not given, and
    [username] and [encrypted] themselves, hold what they held; the records
    of the other usernames are as they were. *)
Theorem modify_merges `{Passlib} (w w1 : world) (kwargs : gmap string json)
    (username : string) (b : bool) :
  healthy w →
  kwargs !! "username" = Some (JStr username) →
  modify kwargs w = (Ok b, w1) →
  b = true
  ∧ (∀ field v, kwargs !! field = Some v →
       field ≠ "username" → field ≠ "encrypted" → field ≠ "password" →
       hash_at (key username) w1 !! field = Some (str v))
  ∧ (∀ field, kwargs !! field = None ∨ field = "username" ∨ field = "encrypted" →
       hash_at (key username) w1 !! field = hash_at (key username) w !! field)
  ∧ (∀ k, k ≠ key username → db w1 !! k = db w !! k).
Proof.
  intros Hh Hu Hmod.
  destruct (modify_returned _ _ _ _ Hh Hmod) as (-> & _ & u & Hu' & _ & Hdb & _).
  assert (u = username) as -> by congruence.
  assert (Hrec : hash_at (key username) w1 =
                 (str <$> modify_fields (rng w) kwargs) ∪ hash_at (key username) w).
  { unfold hash_at at 1. by rewrite Hdb, lookup_insert_eq. }
  split; [done|]. split; [|split].
  - intros field v Hv Hn1 Hn2 Hn3. rewrite Hrec. apply lookup_union_Some_l.
    unfold modify_fields. rewrite lookup_fmap, !lookup_delete_ne by done.
    destruct (truthy _); [by rewrite Hv|].
    destruct (kwargs !! "password") as [[| | |p]|]; rewrite ?lookup_insert_ne by done;
      by rewrite Hv.
  - intros field Hfield. rewrite Hrec. apply lookup_union_r.
    unfold modify_fields. rewrite lookup_fmap.
    destruct (decide (field = "username")) as [->|Hn1]; [by rewrite lookup_delete_eq|].
    rewrite lookup_delete_ne by done.
    destruct (decide (field = "encrypted")) as [->|Hn2]; [by rewrite lookup_delete_eq|].
    rewrite lookup_delete_ne by done.
    destruct Hfield as [Hnone|[?|?]]; try done.
    destruct (truthy _); [by rewrite Hnone|].
    destruct (kwargs !! "password") as [[| | |p]|] eqn:Hp; rewrite ?Hnone; try done.
    rewrite lookup_insert_ne; [by rewrite Hnone|]. intros <-. congruence.
  - intros k Hk. by rewrite Hdb, lookup_insert_ne.
Qed.


(** X18. [modify] with nothing to write raises: given only [username], and
    [encrypted] true so that no password is asked for, it raises redis's
    [DataError] for the empty mapping, and nothing is written or sent. *)
Theorem modify_nothing_to_write `{Passlib} (w : world) (kwargs : gmap string json) :
  valid kwargs schema = true →
  truthy (default (JBool false) (kwargs !! "encrypted")) = true →
  (∀ field, is_Some (kwargs !! field) → field = "username" ∨ field = "encrypted") →
  modify kwargs w = (Raise DataError, w).
Proof.
  intros Hv Henc Honly. unfold modify, jsonschema_validate. rewrite Hv.
  do 2 step. unfold mbind at 1, M_bind at 1. rewrite hash_step, Henc.
  assert (Hvalid := Hv). unfold valid in Hvalid. apply andb_true_iff in Hvalid as [Hreq Hty].
  cbn in Hreq. rewrite andb_true_r in Hreq. apply bool_decide_eq_true in Hreq as [v Hu].
  cbn in Hty. rewrite Hu in Hty. destruct v; try done.
  rewrite (getitem_some _ "username" (JStr s)) by (by rewrite lookup_delete_ne).
  step.
  assert (Hempty : base.delete "username" (base.delete "encrypted" kwargs) = ∅).
  { apply map_eq; intros field. rewrite lookup_empty.
    destruct (decide (field = "username")) as [->|Hn1]; [by rewrite lookup_delete_eq|].
    rewrite lookup_delete_ne by done.
    destruct (decide (field = "encrypted")) as [->|Hn2]; [by rewrite lookup_delete_eq|].
    rewrite lookup_delete_ne by done.
    apply eq_None_not_Some. intros Hsome. by destruct (Honly _ Hsome). }
  rewrite Hempty. unfold hmset. rewrite bool_decide_eq_true_2 by done.
  by step.
Qed.


End ManagerMore.

(** "ghost" on a fresh store: [False], and one event saying so. *)
Lemma exists_reports_witness :
  ∃ w', @Manager.exists_ toy_clock "ghost" fresh = (Ok false, w')
        ∧ db w' = ∅
        ∧ length (trace w') = 1%nat.
Proof.
  destruct (@exists_reports toy_clock fresh "ghost") as (w' & Hex & Hdb & Htr).
  - by constructor.
  - exists w'. split; [exact Hex|]. split; [exact Hdb|]. by rewrite Htr.
Defined.



(** * Properties of the gateway's handlers *)

Section GatewayFacts.
Context `{Clock} `{Passlib}.

Import Manager.

Lemma append_cons c (s t : string) : String c s +:+ t = String c (s +:+ t).
Proof. reflexivity. Qed.

Lemma split_nonempty sep s : Wsgi.split sep s ≠ [].
Proof.
  destruct s as [|c rest]; cbn; [done|].
  destruct (Ascii.eqb c sep); [done|]. by destruct (Wsgi.split sep rest).
Qed.



Lemma split_more sep (a b c : string) :
  (2 < length (Wsgi.split sep (a +:+ String sep (b +:+ String sep c))))%nat.
Proof.
  assert (Hlen : ∀ s, (0 < length (Wsgi.split sep s))%nat).
  { intros s. pose proof (split_nonempty sep s). destruct (Wsgi.split sep s); [done|cbn; lia]. }
  assert (Hsep : ∀ s t, (length (Wsgi.split sep t) < length (Wsgi.split sep (s +:+ String sep t)))%nat).
  { induction s as [|x s IH]; intros t.
    - change ("" +:+ String sep t) with (String sep t). cbn. rewrite Ascii.eqb_refl. cbn. lia.
    - rewrite append_cons. cbn. destruct (Ascii.eqb x sep); cbn.
      + specialize (IH t). lia.
      + specialize (IH t). destruct (Wsgi.split sep (s +:+ String sep t)); cbn in *; lia. }
  pose proof (Hsep a (b +:+ String sep c)). pose proof (Hsep b c). pose proof (Hlen c). lia.
Qed.




Lemma keeps_authorize req : keeps_db (Wsgi.authorize req).
Proof.
  unfold Wsgi.authorize.
  destruct (Wsgi.authorization req) as [[auth_type decoded]|]; [|apply keeps_raise].
  destruct (Wsgi.split ":" decoded) as [|username [|password [|? ?]]];
    try apply keeps_raise.
  apply keeps_bind; [apply keeps_authenticate|].
  intros []; [apply keeps_ret|apply keeps_raise].
Qed.

(** The handlers behind [authorize], when it raises. *)
Lemma refused_requests (w : world) (req : Wsgi.request)
    (username field : string) (e : exn) :
  (Wsgi.authorize req w).1 = Raise e →
  ((Wsgi.add_user req w).1 = Raise e ∧ db (Wsgi.add_user req w).2 = db w)
  ∧ ((Wsgi.remove_user req username w).1 = Raise e
     ∧ db (Wsgi.remove_user req username w).2 = db w)
  ∧ ((Wsgi.modify_user_field req username field w).1 = Raise e
     ∧ db (Wsgi.modify_user_field req username field w).2 = db w).
Proof.
  intros Hraise. pose proof (keeps_authorize req w) as Hdb.
  unfold Wsgi.add_user, Wsgi.remove_user, Wsgi.modify_user_field, mbind, M_bind.
  destruct (Wsgi.authorize req w) as [[[]|e'] w']; cbn in *; [done|].
  by injection Hraise as ->.
Qed.

(** X21. A request that [authorize] turns down changes nothing in the
    store: when [authorize] raises, [add_user], [remove_user] and
    [modify_user_field] raise the same exception and leave the database as
    it was, whatever the broker does. *)
Theorem refused_requests_change_nothing (w : world) (req : Wsgi.request)
    (username field : string) (e : exn) :
  (Wsgi.authorize req w).1 = Raise e →
  ((Wsgi.add_user req w).1 = Raise e ∧ db (Wsgi.add_user req w).2 = db w)
  ∧ ((Wsgi.remove_user req username w).1 = Raise e
     ∧ db (Wsgi.remove_user req username w).2 = db w)
  ∧ ((Wsgi.modify_user_field req username field w).1 = Raise e
     ∧ db (Wsgi.modify_user_field req username field w).2 = db w).
Proof. apply refused_requests. Qed.


(** X23. Credentials with a colon in the password are turned down as
    malformed: [authorize] raises [ValueError] (the unpacking of the split)
    before it looks anything up, so nothing is read, written or sent. *)
Theorem authorize_colon_in_password (w : world) (req : Wsgi.request)
    (auth_type username before after_colon : string) :
  Wsgi.authorization req =
    Some (auth_type, username +:+ String ":" (before +:+ String ":" after_colon)) →
  Wsgi.authorize req w = (Raise ValueError, w).
Proof.
  intros Hauth. unfold Wsgi.authorize. rewrite Hauth.
  pose proof (split_more ":" username before after_colon) as Hlen.
  destruct (Wsgi.split ":" _) as [|? [|? [|? ?]]]; cbn in Hlen; try lia; done.
Qed.






End GatewayFacts.

(** * The further properties at concrete inputs *)

Lemma healthy_fresh : healthy fresh.
Proof. by constructor. Qed.

Lemma publish_once_witness :
  let r := Queue.publish "job" "" "auth_jobs" {[ "task" := PStr "mail" ]} true flaky_start in
  db r.2 = db flaky_start
  ∧ ∃ waits, only_sleeps waits
      ∧ (r.1 = Ok tt
         ∧ trace r.2 = trace flaky_start ++ waits ++
             [Published "job" "" "auth_jobs" {[ "task" := PStr "mail" ]} true]
         ∨ (∃ n, r.1 = Raise (TooManyRetries n)) ∧ trace r.2 = trace flaky_start ++ waits).
Proof.
  apply publish_once; [by left|].
  change (closed_connections flaky_start) with 4%nat. unfold depth_budget. lia.
Defined.

Lemma publish_reconnects_witness :
  ∃ w', Queue.publish "log" "auth_logs" "" {[ "action" := PStr "user:viewed-listing" ]}
          false three_closed = (Ok tt, w')
        ∧ retries (link w') = 0.
Proof.
  eexists. split.
  - apply (publish_reconnects three_closed 2 []); [reflexivity|reflexivity|reflexivity|discriminate].
  - reflexivity.
Defined.

Lemma publish_flapping_witness :
  ∃ w', Queue.publish "log" "auth_logs" "" {[ "action" := PStr "user:viewed-listing" ]}
          false twelve_flaps = (Ok tt, w')
        ∧ length (trace w') = 1%nat.
Proof.
  eexists. split.
  - apply (publish_flapping twelve_flaps 12 []);
      [reflexivity|reflexivity|unfold depth_budget; lia|reflexivity|discriminate].
  - reflexivity.
Defined.

Lemma too_many_retries_is_final_witness :
  Queue.connect (Queue.connect flaky_start).2
    = (Raise (TooManyRetries 0), (Queue.connect flaky_start).2).
Proof.
  apply (too_many_retries_is_final flaky_start 0). reflexivity.
Defined.

Lemma delete_removes_witness :
  (Manager.delete "alice" (with_alice "#secret")).1 = Ok 1
  ∧ present "alice" (Manager.delete "alice" (with_alice "#secret")).2 = false.
Proof.
  destruct (delete_removes (with_alice "#secret") "alice") as (Heq & Hgone & _).
  split; [by rewrite Heq|exact Hgone].
Defined.

Lemma add_all_or_nothing_witness :
  match (@Manager.add toy_clock toy_passlib alice_kwargs (with_alice "#secret")).1 with
  | Ok username => True
  | Raise _ =>
    db (@Manager.add toy_clock toy_passlib alice_kwargs (with_alice "#secret")).2
    = db (with_alice "#secret")
  end.
Proof.
  pose proof (@add_all_or_nothing toy_clock toy_passlib (with_alice "#secret")
                alice_kwargs healthy_fresh) as Hadd.
  destruct (@Manager.add toy_clock toy_passlib alice_kwargs (with_alice "#secret")).1;
    [exact I|exact Hadd].
Defined.




Lemma schema_is_checked_first_witness :
  @Manager.add toy_clock toy_passlib {[ "username" := JStr "alice" ]} fresh
    = (Raise ValidationError, fresh)
  ∧ @Manager.modify toy_clock toy_passlib {[ "password" := JStr "secret" ]} fresh
    = (Raise ValidationError, fresh)
  ∧ @Manager.add toy_clock toy_passlib
      {[ "username" := JStr "alice"; "password" := JNum 1234 ]} fresh
    = (Raise ValidationError, fresh).
Proof.
  split; [|split].
  - destruct (@schema_is_checked_first toy_clock toy_passlib fresh
                {[ "username" := JStr "alice" ]}) as (Hadd & _).
    apply Hadd. right. reflexivity.
  - destruct (@schema_is_checked_first toy_clock toy_passlib fresh
                {[ "password" := JStr "secret" ]}) as (_ & Hmod & _).
    apply Hmod. reflexivity.
  - destruct (@schema_is_checked_first toy_clock toy_passlib fresh
                {[ "username" := JStr "alice"; "password" := JNum 1234 ]}) as (_ & _ & Htyped).
    apply (Htyped "password" (JNum 1234)); [reflexivity|].
    left. split; [by right|discriminate].
Defined.


Lemma modify_merges_witness :
  Manager.hash_at (Manager.key "alice")
    (@Manager.modify toy_clock toy_passlib
       {[ "username" := JStr "alice"; "password" := JStr "new"; "system" := JBool true ]}
       (with_alice "#secret")).2 !! "system" = Some "True"
  ∧ Manager.hash_at (Manager.key "alice")
      (@Manager.modify toy_clock toy_passlib
         {[ "username" := JStr "alice"; "password" := JStr "new"; "system" := JBool true ]}
         (with_alice "#secret")).2 !! "username" = Some "alice".
Proof.
  destruct (@modify_merges toy_clock toy_passlib (with_alice "#secret")
              (@Manager.modify toy_clock toy_passlib
                 {[ "username" := JStr "alice"; "password" := JStr "new";
                    "system" := JBool true ]} (with_alice "#secret")).2
              {[ "username" := JStr "alice"; "password" := JStr "new";
                 "system" := JBool true ]}
              "alice" true healthy_fresh) as (_ & Hgiven & Hkept & _).
  - reflexivity.
  - vm_compute. reflexivity.
  - split.
    + apply (Hgiven "system" (JBool true)); [reflexivity|discriminate..].
    + rewrite Hkept; [reflexivity|]. right. by left.
Defined.


Lemma modify_nothing_to_write_witness :
  @Manager.modify toy_clock toy_passlib
     {[ "username" := JStr "alice"; "encrypted" := JBool true ]} (with_alice "#secret")
  = (Raise DataError, with_alice "#secret").
Proof.
  apply (@modify_nothing_to_write toy_clock toy_passlib); [reflexivity|reflexivity|].
  intros field [v Hv].
  destruct (decide (field = "username")) as [|Hn1]; [by left|].
  destruct (decide (field = "encrypted")) as [|Hn2]; [by right|].
  by rewrite lookup_insert_ne, lookup_singleton_ne in Hv.
Defined.



Lemma refused_requests_change_nothing_witness :
  (@Wsgi.add_user toy_clock toy_passlib anonymous with_service).1 = Raise Unauthorized
  ∧ db (@Wsgi.remove_user toy_clock toy_passlib anonymous "alice" with_service).2
    = db with_service.
Proof.
  destruct (@refused_requests_change_nothing toy_clock toy_passlib with_service anonymous
              "alice" "password" Unauthorized) as ((Hadd & _) & (_ & Hdb) & _).
  - reflexivity.
  - exact (conj Hadd Hdb).
Defined.


Lemma authorize_colon_in_password_witness :
  @Wsgi.authorize toy_clock toy_passlib
     (Wsgi.Request (Some ("Basic", "svc:p:w")) (Wsgi.BValue JNull)) with_service
  = (Raise ValueError, with_service).
Proof.
  apply (@authorize_colon_in_password toy_clock toy_passlib with_service _
           "Basic" "svc" "p" "w").
  reflexivity.
Defined.





Lemma init_bound_of_one_witness :
  Queue.init "amqp://localhost" 1 0.1%Q fresh
  = (Raise (TooManyRetries 1), set_link (Messenger "amqp://localhost" 1 1 0.1%Q) fresh).
Proof. apply init_bound_of_one. lia. Defined.


